(** * The chat widget of [app/static/script.js]

    A shallow embedding of the script: [appendMessage] and the asynchronous
    [submit] listener, over a model of the parts of the browser they touch
    (strings of UTF-16 code units, [String.prototype.trim], [JSON.stringify],
    [ToString], [ToBoolean], a [div] with a class list and a text, the
    scrolling container, [fetch] and [Response.json]). *)

From Stdlib Require Import List Bool NArith ZArith Lia Ascii String DecimalString.
Import ListNotations.

Local Open Scope string_scope.
Local Open Scope list_scope.
Local Open Scope N_scope.

(** ** Strings

    A JavaScript string is a sequence of 16-bit code units. *)

Definition jstring := list N.

(** [lit s]: the JavaScript string literal whose characters are the ASCII
    characters of [s]. *)
Definition lit (s : string) : jstring :=
  map N_of_ascii (list_ascii_of_string s).

Fixpoint jstring_eqb (s t : jstring) : bool :=
  match s, t with
  | [], [] => true
  | c :: s', d :: t' => (c =? d) && jstring_eqb s' t'
  | _, _ => false
  end.

(** [!s] for a string [s]: only the empty string is falsy. *)
Definition is_empty (s : jstring) : bool :=
  match s with [] => true | _ :: _ => false end.

(** WhiteSpace and LineTerminator code units of ECMA-262, the ones
    [String.prototype.trim] strips. *)
Definition is_white_space (c : N) : bool :=
  (c =? 0x0009) || (c =? 0x000A) || (c =? 0x000B) || (c =? 0x000C) ||
  (c =? 0x000D) || (c =? 0x0020) || (c =? 0x00A0) || (c =? 0x1680) ||
  ((0x2000 <=? c) && (c <=? 0x200A)) ||
  (c =? 0x2028) || (c =? 0x2029) || (c =? 0x202F) || (c =? 0x205F) ||
  (c =? 0x3000) || (c =? 0xFEFF).

Fixpoint trim_start (s : jstring) : jstring :=
  match s with
  | [] => []
  | c :: s' => if is_white_space c then trim_start s' else s
  end.

Definition trim_end (s : jstring) : jstring := rev (trim_start (rev s)).

(** [String.prototype.trim] *)
Definition trim (s : jstring) : jstring := trim_end (trim_start s).

(** [join sep parts]: the parts with [sep] between them. *)
Fixpoint join (sep : jstring) (parts : list jstring) : jstring :=
  match parts with
  | [] => []
  | [p] => p
  | p :: rest => p ++ sep ++ join sep rest
  end.

(** ** QuoteJSONString *)

Definition hex_digit (n : N) : N :=
  if n <? 10 then 48 + n else 87 + n.

(** The six code units [\uXXXX], with lower-case hexadecimal digits. *)
Definition unicode_escape (c : N) : jstring :=
  [92; 117;
   hex_digit (N.shiftr c 12 mod 16); hex_digit (N.shiftr c 8 mod 16);
   hex_digit (N.shiftr c 4 mod 16); hex_digit (c mod 16)].

Definition is_leading_surrogate (c : N) : bool :=
  (0xD800 <=? c) && (c <=? 0xDBFF).

Definition is_trailing_surrogate (c : N) : bool :=
  (0xDC00 <=? c) && (c <=? 0xDFFF).

(** One code unit that is not part of a surrogate pair. *)
Definition quote_unit (c : N) : jstring :=
  if c =? 0x08 then [92; 98]         (* backspace: backslash b *)
  else if c =? 0x09 then [92; 116]   (* tab: backslash t *)
  else if c =? 0x0A then [92; 110]   (* line feed: backslash n *)
  else if c =? 0x0C then [92; 102]   (* form feed: backslash f *)
  else if c =? 0x0D then [92; 114]   (* carriage return: backslash r *)
  else if c =? 0x22 then [92; 34]    (* double quote, escaped *)
  else if c =? 0x5C then [92; 92]    (* backslash, doubled *)
  else if c <? 0x20 then unicode_escape c
  else if is_leading_surrogate c || is_trailing_surrogate c
       then unicode_escape c
  else [c].

(** The string is read code point by code point: a leading surrogate
    followed by a trailing one is a pair and is copied, a lone surrogate is
    escaped. *)
Fixpoint quote_units (s : jstring) : jstring :=
  match s with
  | [] => []
  | c :: rest =>
      match rest with
      | c' :: rest' =>
          if is_leading_surrogate c && is_trailing_surrogate c'
          then c :: c' :: quote_units rest'
          else quote_unit c ++ quote_units rest
      | [] => quote_unit c
      end
  end.

Definition quote_json_string (s : jstring) : jstring :=
  [34] ++ quote_units s ++ [34].

(** ** The document *)

(** The [div] elements the script creates: a name, the tokens of [classList]
    and [textContent]. *)
Record node := {
  localName : jstring;
  classList : list jstring;
  textContent : jstring
}.

(** The element [#chat-window], taken to be a scroll container: its child
    nodes, its scroll offset and the height of its viewport in pixels. *)
Record container := {
  children : list node;
  scrollTop : Z;
  clientHeight : Z
}.

(** What the script can see of the document: the value of [#user-input] and
    [#chat-window]. *)
Record page := {
  userInput_value : jstring;
  chatWindow : container
}.

(** The submit event, as far as the listener touches it. *)
Record event := { defaultPrevented : bool }.

(** Exceptions: every value thrown or rejected with here is an [Error]
    object (or a [DOMException]) and the script reads only its [message]. *)
Record js_error := {
  name : jstring;
  message : jstring
}.

(** ** The browser

    What is left to the engine: the number type of parsed JSON with its
    conversions, the messages of the exceptions the engine raises by itself,
    and the layout, which gives the height of the content of the container
    from its children. *)
Class Browser := {
  number : Type;
  (** ToBoolean: false on [0], [-0] and [NaN] *)
  number_truthy : number -> bool;
  (** Number::toString *)
  number_to_string : number -> jstring;
  (** what [JSON.stringify] writes for a number: [null] when not finite *)
  number_to_json : number -> jstring;
  (** message of the TypeError raised on reading a property of [null] *)
  null_read_message : jstring -> jstring;
  (** message of the TypeError of OrdinaryToPrimitive *)
  to_primitive_message : jstring;
  (** messages of the DOMExceptions of [DOMTokenList.add]: for an empty
      token, and for a token with whitespace, which the message may quote *)
  empty_token_message : jstring;
  token_whitespace_message : jstring -> jstring;
  (** height in pixels of the laid out children of [#chat-window] *)
  content_height : list node -> Z
}.

(** A browser to run examples on. Its numbers are the integers from -255
    to 255, a sign and a byte, among them the negative zero; such a number
    is written as its decimal numeral, by Number::toString and by
    [JSON.stringify] alike, and only the two zeros are falsy. Its messages
    stand for those of an engine: no statement depends on their wording.
    Its layout gives every message a line of 24 pixels. *)
Record small_integer := {
  negative : bool;
  magnitude : Byte.byte
}.

Definition integer_value (n : small_integer) : Z :=
  let m := Z.of_N (Byte.to_N (magnitude n)) in
  if negative n then (- m)%Z else m.

Definition integer_text (n : small_integer) : jstring :=
  lit (DecimalString.NilZero.string_of_int (Z.to_int (integer_value n))).

#[export] Instance line_browser : Browser := {|
  number := small_integer;
  number_truthy := fun n => negb (integer_value n =? 0)%Z;
  number_to_string := integer_text;
  number_to_json := integer_text;
  null_read_message := fun p =>
    lit "Cannot read properties of null (reading '" ++ p ++ lit "')";
  to_primitive_message := lit "Cannot convert object to primitive value";
  empty_token_message := lit "The token provided must not be empty.";
  token_whitespace_message := fun t =>
    lit "The token provided ('" ++ t
    ++ lit "') contains HTML space characters, which are not valid in tokens.";
  content_height := fun l => (24 * Z.of_nat (List.length l))%Z
|}.

(** ** Completions *)

Inductive completion (A : Type) : Type :=
| Normal (a : A)
| Throw (e : js_error).
Arguments Normal {A} a.
Arguments Throw {A} e.

Definition bind {A B} (c : completion A) (k : A -> completion B)
  : completion B :=
  match c with
  | Normal a => k a
  | Throw e => Throw e
  end.

Notation "x <- c ;; k" := (bind c (fun x => k))
  (at level 61, c at next level, right associativity).

(** How a promise settles. *)
Inductive settled (A : Type) : Type :=
| Fulfilled (a : A)
| Rejected (reason : js_error).
Arguments Fulfilled {A} a.
Arguments Rejected {A} reason.

(** [new Error(m)] and the exceptions of the engine. *)
Definition Error (m : jstring) : js_error :=
  {| name := lit "Error"; message := m |}.
Definition TypeError (m : jstring) : js_error :=
  {| name := lit "TypeError"; message := m |}.
Definition DOMException (n m : jstring) : js_error :=
  {| name := n; message := m |}.

(** ** The network *)

Record request := {
  url : jstring;
  method : jstring;
  headers : list (jstring * jstring);
  body : jstring
}.

Record response := { status : N }.

(** [Response.ok]: the status is in the range 200 to 299. *)
Definition ok (r : response) : bool :=
  (200 <=? status r) && (status r <=? 299).

Section Widget.

Context {B : Browser}.

(** ** JSON values

    The value [Response.json] resolves to. An object is the list of its own
    properties in the order the engine enumerates them, with distinct
    keys. *)
#[warnings="-register-all"]
Inductive json : Type :=
| JNull
| JBool (b : bool)
| JNum (n : number)
| JStr (s : jstring)
| JArr (elements : list json)
| JObj (properties : list (jstring * json)).

(** A value of the script: [undefined] or a JSON value. *)
Definition value := option json.
Definition undefined : value := None.
Definition str (s : jstring) : value := Some (JStr s).

(** [JSON.stringify(v)], without indentation. None of these values has a
    callable [toJSON] and none is [undefined], so no property is left out. *)
Fixpoint stringify (v : json) : jstring :=
  match v with
  | JNull => lit "null"
  | JBool true => lit "true"
  | JBool false => lit "false"
  | JNum n => number_to_json n
  | JStr s => quote_json_string s
  | JArr l => lit "[" ++ join (lit ",") (map stringify l) ++ lit "]"
  | JObj ps =>
      lit "{" ++
      join (lit ",")
        (map (fun p => quote_json_string (fst p) ++ lit ":" ++ stringify (snd p))
             ps) ++
      lit "}"
  end.

(** The own property [key] of an object. *)
Fixpoint own_property (key : jstring) (ps : list (jstring * json))
  : option json :=
  match ps with
  | [] => None
  | (k, v) :: rest => if jstring_eqb k key then Some v else own_property key rest
  end.

(** ToBoolean *)
Definition truthy (v : value) : bool :=
  match v with
  | None => false
  | Some JNull => false
  | Some (JBool b) => b
  | Some (JNum n) => number_truthy n
  | Some (JStr s) => negb (is_empty s)
  | Some (JArr _) => true
  | Some (JObj _) => true
  end.

(** [data.key] for a key that is neither an index, nor [length], nor on a
    prototype (as [reply] and [response]): reading it from [null] throws,
    an object gives its own property and every other value [undefined]. *)
Definition get (data : json) (key : jstring) : completion value :=
  match data with
  | JNull => Throw (TypeError (null_read_message key))
  | JObj ps => Normal (own_property key ps)
  | _ => Normal undefined
  end.

(** Sequencing of completions over a list, left to right. *)
Fixpoint sequence {A} (l : list (completion A)) : completion (list A) :=
  match l with
  | [] => Normal []
  | c :: rest => a <- c ;; r <- sequence rest ;; Normal (a :: r)
  end.

(** ToString. An array converts through [join]: [null] elements give the
    empty string. An object converts through OrdinaryToPrimitive: with no
    own [toString] the inherited one answers; an own [toString] is data,
    not callable, and then neither an own nor the inherited [valueOf] gives
    a primitive, which is a TypeError. *)
Fixpoint to_string (v : json) : completion jstring :=
  match v with
  | JNull => Normal (lit "null")
  | JBool true => Normal (lit "true")
  | JBool false => Normal (lit "false")
  | JNum n => Normal (number_to_string n)
  | JStr s => Normal s
  | JArr l =>
      parts <- sequence
        (map (fun x => match x with
                       | JNull => Normal []
                       | _ => to_string x
                       end) l) ;;
      Normal (join (lit ",") parts)
  | JObj ps =>
      match own_property (lit "toString") ps with
      | Some _ => Throw (TypeError to_primitive_message)
      | None => Normal (lit "[object Object]")
      end
  end.

(** ** Document operations *)

Definition createElement (local_name : jstring) : node :=
  {| localName := local_name; classList := []; textContent := [] |}.

(** ASCII whitespace of the DOM standard. *)
Definition is_ascii_whitespace (c : N) : bool :=
  (c =? 0x09) || (c =? 0x0A) || (c =? 0x0C) || (c =? 0x0D) || (c =? 0x20).

(** The checks of [DOMTokenList.add], token by token. *)
Fixpoint validate_tokens (tokens : list jstring) : completion unit :=
  match tokens with
  | [] => Normal tt
  | t :: rest =>
      if is_empty t
      then Throw (DOMException (lit "SyntaxError") empty_token_message)
      else if existsb is_ascii_whitespace t
      then Throw (DOMException (lit "InvalidCharacterError")
                    (token_whitespace_message t))
      else validate_tokens rest
  end.

Definition add_token (set : list jstring) (t : jstring) : list jstring :=
  if existsb (jstring_eqb t) set then set else set ++ [t].

(** [n.classList.add(...tokens)] *)
Definition classList_add (tokens : list jstring) (n : node)
  : completion node :=
  _ <- validate_tokens tokens ;;
  Normal {| localName := localName n;
            classList := fold_left add_token tokens (classList n);
            textContent := textContent n |}.

(** [n.textContent = v] on an element without children: the attribute is a
    nullable DOMString, so [undefined] and [null] both convert to the null
    value, which stands for the empty string, and every other value is
    converted with ToString. *)
Definition to_text (v : value) : completion jstring :=
  match v with
  | None => Normal []
  | Some JNull => Normal []
  | Some j => to_string j
  end.

Definition set_textContent (v : value) (n : node) : completion node :=
  text <- to_text v ;;
  Normal {| localName := localName n;
            classList := classList n;
            textContent := text |}.

(** [w.appendChild(n)] for a node [n] that has no parent yet. *)
Definition appendChild (n : node) (w : container) : container :=
  {| children := children w ++ [n];
     scrollTop := scrollTop w;
     clientHeight := clientHeight w |}.

(** [w.scrollHeight]: the height of the content, at least the viewport. *)
Definition scrollHeight (w : container) : Z :=
  Z.max (content_height (children w)) (clientHeight w).

(** The largest scroll offset: the one that shows the end of the content. *)
Definition max_scrollTop (w : container) : Z :=
  (scrollHeight w - clientHeight w)%Z.

(** [w.scrollTop = y]: [scrollTop] is an accessor, and its setter scrolls
    the container to [y] clamped to the range of its scroll offsets, from
    [0] to [scrollHeight] less [clientHeight] (CSSOM View); reading it back
    gives the clamped offset. *)
Definition set_scrollTop (y : Z) (w : container) : container :=
  {| children := children w;
     scrollTop := Z.max 0 (Z.min y (max_scrollTop w));
     clientHeight := clientHeight w |}.

Definition set_chatWindow (w : container) (d : page) : page :=
  {| userInput_value := userInput_value d; chatWindow := w |}.

(** [userInput.value = v] *)
Definition set_userInput_value (v : jstring) (d : page) : page :=
  {| userInput_value := v; chatWindow := chatWindow d |}.

(** [e.preventDefault()] *)
Definition preventDefault (e : event) : event :=
  {| defaultPrevented := true |}.

(** ** The script *)

(** [appendMessage(text, sender)]. The two statements that can throw work
    on the element before it is attached, so a throw leaves the page as it
    was. *)
Definition appendMessage (text : value) (sender : jstring) (d : page)
  : completion page :=
  let msg := createElement (lit "div") in
  msg <- classList_add [lit "chat-message"; sender] msg ;;
  msg <- set_textContent text msg ;;
  let w := appendChild msg (chatWindow d) in
  let w := set_scrollTop (scrollHeight w) w in
  Normal (set_chatWindow w d).

(** [data.reply || data.response || JSON.stringify(data)] *)
Definition reply_of (data : json) : completion value :=
  reply <- get data (lit "reply") ;;
  if truthy reply then Normal reply else
  response <- get data (lit "response") ;;
  if truthy response then Normal response else
  Normal (str (stringify data)).

(** A run of the listener up to its next [await], or to its end: the page
    as the run leaves it, and for an [await] what is awaited and the rest of
    the listener, which takes the settlement of the promise and the page as
    it is when the listener resumes. [Uncaught] is an exception leaving the
    listener. *)
Inductive task : Type :=
| Finished (d : page)
| Uncaught (e : js_error) (d : page)
| AwaitFetch (d : page) (rq : request)
    (resume : settled response -> page -> task)
| AwaitJson (d : page) (rs : response)
    (resume : settled json -> page -> task).

(** The [catch (err)] block. *)
Definition catch_block (err : js_error) (d : page) : task :=
  match appendMessage (str (lit "Error: " ++ message err)) (lit "agent") d with
  | Normal d' => Finished d'
  | Throw e => Uncaught e d
  end.

(** The [try] block after [await response.json()]. *)
Definition after_json (r : settled json) (d : page) : task :=
  match r with
  | Rejected err => catch_block err d
  | Fulfilled data =>
      match text <- reply_of data ;; appendMessage text (lit "agent") d with
      | Normal d' => Finished d'
      | Throw err => catch_block err d
      end
  end.

(** The [try] block after [await fetch(...)]. *)
Definition after_fetch (r : settled response) (d : page) : task :=
  match r with
  | Rejected err => catch_block err d
  | Fulfilled response =>
      if negb (ok response)
      then catch_block (Error (lit "Server error")) d
      else AwaitJson d response after_json
  end.

(** The argument of [fetch] for a message. *)
Definition chat_request (message : jstring) : request :=
  {| url := lit "/api/chat";
     method := lit "POST";
     headers := [(lit "Content-Type", lit "application/json")];
     body := stringify (JObj [(lit "message", JStr message)]) |}.

(** The listener of [submit], up to its first [await]. *)
Definition submit_handler (e : event) (d : page) : event * task :=
  let e := preventDefault e in
  let message := trim (userInput_value d) in
  if is_empty message then (e, Finished d) else
  match appendMessage (str message) (lit "user") d with
  | Throw err => (e, Uncaught err d)
  | Normal d =>
      let d := set_userInput_value [] d in
      (e, AwaitFetch d (chat_request message) after_fetch)
  end.

(** ** Runs of a submission

    Between an [await] and the resumption of the listener the page may
    change: the user types or scrolls, other submissions append their
    messages. [env d d'] says which page [d'] the listener may find when it
    resumes after leaving the page as [d]. A run resumes the listener with
    some settlement of each promise it awaits, collects the requests it
    issues and ends when the listener returns or an exception leaves it. *)
Inductive run (env : page -> page -> Prop) : task -> list request -> task -> Prop :=
| run_finished d :
    run env (Finished d) [] (Finished d)
| run_uncaught e d :
    run env (Uncaught e d) [] (Uncaught e d)
| run_fetch d rq resume r d' rqs t :
    env d d' ->
    run env (resume r d') rqs t ->
    run env (AwaitFetch d rq resume) (rq :: rqs) t
| run_json d rs resume r d' rqs t :
    env d d' ->
    run env (resume r d') rqs t ->
    run env (AwaitJson d rs resume) rqs t.

(** The log is append-only: whatever else happens while the listener
    waits, the messages that were in the log stay at their places. *)
Definition log_extends (d d' : page) : Prop :=
  exists more, children (chatWindow d') = children (chatWindow d) ++ more.

(** A submission that nothing interleaves with, the promises settling as
    [fr] and [jr]. *)
Definition settle (fr : settled response) (jr : settled json) (t : task)
  : task :=
  match t with
  | AwaitFetch d _ resume =>
      match resume fr d with
      | AwaitJson d' _ resume' => resume' jr d'
      | t' => t'
      end
  | AwaitJson d _ resume => resume jr d
  | t' => t'
  end.

(** ** Vocabulary of the statements *)

(** The element that shows a message of [sender] with the text [text]. *)
Definition message_node (sender text : jstring) : node :=
  {| localName := lit "div";
     classList := [lit "chat-message"; sender];
     textContent := text |}.

(** The field [key] of a body: only an object has fields. *)
Definition field (data : json) (key : jstring) : value :=
  match data with
  | JObj ps => own_property key ps
  | _ => undefined
  end.

Definition user : jstring := lit "user".
Definition agent : jstring := lit "agent".

(** [d'] is [d] with the one node [n] appended to the log: the input field
    and the viewport are the same. *)
Definition appends_one (n : node) (d d' : page) : Prop :=
  children (chatWindow d') = children (chatWindow d) ++ [n] /\
  userInput_value d' = userInput_value d /\
  clientHeight (chatWindow d') = clientHeight (chatWindow d).

(** The page after [n] is attached to the log and the log is scrolled, the
    last two statements of [appendMessage]. *)
Definition attached (n : node) (d : page) : page :=
  let w := appendChild n (chatWindow d) in
  set_chatWindow (set_scrollTop (scrollHeight w) w) d.

(** The listener has returned, and what it did to the page [d] it ran on
    is to append the one node [n]. *)
Definition ends_appending (t : task) (n : node) (d : page) : Prop :=
  exists d', t = Finished d' /\ appends_one n d d'.

(** The viewport of the container ends where its content ends. *)
Definition at_bottom (w : container) : Prop :=
  (scrollTop w + clientHeight w = scrollHeight w)%Z.

(** The network call failed: no response at all, or a response whose status
    is not in the range 200 to 299. *)
Definition failed (r : settled response) : Prop :=
  match r with
  | Rejected _ => True
  | Fulfilled rs => status rs < 200 \/ 299 < status rs
  end.

(** The text after [Error: ] for a failed call. *)
Definition failure_message (r : settled response) : jstring :=
  match r with
  | Rejected err => message err
  | Fulfilled _ => lit "Server error"
  end.

(** ** The page and its listeners over time

    The listener is registered once, for every [submit] of the form, and
    nothing keeps a second submission from starting while an earlier one
    waits. A session is the page together with the listeners that are
    suspended at an [await], oldest first. *)
Record session := {
  doc : page;
  waiting : list task
}.

(** What can happen: the form is submitted, the user edits the input field
    or scrolls the log, and the promise awaited by the [i]-th suspended
    listener settles. *)
Inductive action : Type :=
| Submit (e : event)
| TypeText (v : jstring)
| ScrollTo (y : Z)
| FetchSettles (i : nat) (r : settled response)
| JsonSettles (i : nat) (r : settled json).

(** The page a run of the listener leaves. *)
Definition page_of (t : task) : page :=
  match t with
  | Finished d => d
  | Uncaught _ d => d
  | AwaitFetch d _ _ => d
  | AwaitJson d _ _ => d
  end.

(** The run as a suspended listener, if it stopped at an [await]. *)
Definition suspended (t : task) : list task :=
  match t with
  | AwaitFetch _ _ _ => [t]
  | AwaitJson _ _ _ => [t]
  | _ => []
  end.

(** The [i]-th suspended listener has run on to [t]. *)
Definition resumed (i : nat) (t : task) (w : session) : session :=
  {| doc := page_of t;
     waiting := firstn i (waiting w) ++ suspended t ++ skipn (S i) (waiting w) |}.

(** One action; [None] when no listener waits at [i] for that promise. A
    listener resumes on the page as it is then. *)
Definition perform (a : action) (w : session) : option session :=
  match a with
  | Submit e =>
      let t := snd (submit_handler e (doc w)) in
      Some {| doc := page_of t; waiting := waiting w ++ suspended t |}
  | TypeText v =>
      Some {| doc := set_userInput_value v (doc w); waiting := waiting w |}
  | ScrollTo y =>
      Some {| doc := set_chatWindow (set_scrollTop y (chatWindow (doc w)))
                       (doc w);
              waiting := waiting w |}
  | FetchSettles i r =>
      match nth_error (waiting w) i with
      | Some (AwaitFetch _ _ resume) => Some (resumed i (resume r (doc w)) w)
      | _ => None
      end
  | JsonSettles i r =>
      match nth_error (waiting w) i with
      | Some (AwaitJson _ _ resume) => Some (resumed i (resume r (doc w)) w)
      | _ => None
      end
  end.

Fixpoint perform_all (l : list action) (w : session) : option session :=
  match l with
  | [] => Some w
  | a :: rest =>
      match perform a w with
      | Some w' => perform_all rest w'
      | None => None
      end
  end.

(** The suspended listeners are suspensions of this listener: at the
    [await] of [fetch] or at the [await] of the body. *)
Definition of_listener (t : task) : Prop :=
  (exists d rq, t = AwaitFetch d rq after_fetch) \/
  (exists d rs, t = AwaitJson d rs after_json).

(** What one action may do to the log and to the suspended listeners:
    nothing, or a user message more and a listener more, or an agent
    message more and a listener less. *)
Definition log_step (w w' : session) : Prop :=
  let log x := children (chatWindow (doc x)) in
  (log w' = log w /\
   List.length (waiting w') = List.length (waiting w)) \/
  (exists m,
      log w' = log w ++ [message_node user m] /\
      List.length (waiting w') = S (List.length (waiting w))) \/
  (exists text,
      log w' = log w ++ [message_node agent text] /\
      S (List.length (waiting w')) = List.length (waiting w)).

(** The elements the script makes: a message of the user or of the
    agent. *)
Definition is_message (n : node) : Prop :=
  exists sender text,
    (sender = user \/ sender = agent) /\ n = message_node sender text.

(** The page has just been loaded: no listener has run yet. *)
Definition loaded (d : page) : session := {| doc := d; waiting := [] |}.

(** The elements of the log that carry the class [c]. *)
Definition has_class (c : jstring) (n : node) : bool :=
  existsb (jstring_eqb c) (classList n).

Definition count_class (c : jstring) (d : page) : nat :=
  List.length (filter (has_class c) (children (chatWindow d))).

(** What [DOMTokenList.add] accepts as a token. *)
Definition valid_token (t : jstring) : Prop :=
  t <> [] /\ existsb is_ascii_whitespace t = false.

(** ** Reading a quoted string back

    The inverse of the escapes of QuoteJSONString, as a JSON parser reads
    the characters between the quotes. *)
Definition unhex_digit (c : N) : N :=
  if c <? 58 then c - 48 else c - 87.

Definition unescape (c : N) : N :=
  if c =? 98 then 0x08
  else if c =? 116 then 0x09
  else if c =? 110 then 0x0A
  else if c =? 102 then 0x0C
  else if c =? 114 then 0x0D
  else c.

Fixpoint unquote_units (q : jstring) : jstring :=
  match q with
  | [] => []
  | c :: rest =>
      if c =? 92 then
        match rest with
        | [] => []
        | x :: rest' =>
            if x =? 117 then
              match rest' with
              | h3 :: h2 :: h1 :: h0 :: rest'' =>
                  (4096 * unhex_digit h3 + 256 * unhex_digit h2
                   + 16 * unhex_digit h1 + unhex_digit h0)
                  :: unquote_units rest''
              | _ => []
              end
            else unescape x :: unquote_units rest'
        end
      else c :: unquote_units rest
  end.

(** ** JSON text, as a reader takes it (RFC 8259)

    The characters of a string between its quotes: a character from U+0020
    on other than the quote and the backslash stands for itself, a
    backslash starts an escape, either one of the eight two-character
    escapes or [u] and four hexadecimal digits. The reader gives the string
    denoted, and nothing for anything else. *)
Definition is_hex_digit (c : N) : bool :=
  ((48 <=? c) && (c <=? 57)) || ((65 <=? c) && (c <=? 70))
  || ((97 <=? c) && (c <=? 102)).

Definition hex_value (c : N) : N :=
  if c <=? 57 then c - 48 else if c <=? 70 then c - 55 else c - 87.

Definition escape_value (x : N) : option N :=
  if x =? 34 then Some 0x22             (* quote *)
  else if x =? 92 then Some 0x5C        (* backslash *)
  else if x =? 47 then Some 0x2F        (* solidus *)
  else if x =? 98 then Some 0x08        (* b *)
  else if x =? 102 then Some 0x0C       (* f *)
  else if x =? 110 then Some 0x0A       (* n *)
  else if x =? 114 then Some 0x0D       (* r *)
  else if x =? 116 then Some 0x09       (* t *)
  else None.

Fixpoint read_json_chars (q : jstring) : option jstring :=
  match q with
  | [] => Some []
  | c :: rest =>
      if c =? 92 then
        match rest with
        | [] => None
        | x :: rest' =>
            if x =? 117 then
              match rest' with
              | h3 :: h2 :: h1 :: h0 :: rest'' =>
                  if is_hex_digit h3 && is_hex_digit h2
                     && is_hex_digit h1 && is_hex_digit h0
                  then option_map
                         (cons (4096 * hex_value h3 + 256 * hex_value h2
                                + 16 * hex_value h1 + hex_value h0))
                         (read_json_chars rest'')
                  else None
              | _ => None
              end
            else
              match escape_value x with
              | Some v => option_map (cons v) (read_json_chars rest')
              | None => None
              end
        end
      else if (c <? 32) || (c =? 34) then None
      else option_map (cons c) (read_json_chars rest)
  end.

(** Well-formed UTF-16: every leading surrogate is followed by a trailing
    one and no trailing surrogate stands alone, so that the text can be
    sent as UTF-8. *)
Fixpoint well_formed_utf16 (s : jstring) : bool :=
  match s with
  | [] => true
  | c :: rest =>
      if is_leading_surrogate c then
        match rest with
        | c' :: rest' => is_trailing_surrogate c' && well_formed_utf16 rest'
        | [] => false
        end
      else negb (is_trailing_surrogate c) && well_formed_utf16 rest
  end.

(** ** Where the last message is

    The messages are blocks laid out one under the other: the box of the
    last child of the log reaches from the end of the content before it to
    the end of the content. *)
Definition last_message_top (w : container) : Z :=
  content_height (removelast (children w)).

Definition last_message_bottom (w : container) : Z :=
  content_height (children w).

(** The last message is visible: its end is in the viewport, and so is its
    beginning, unless the message is taller than the viewport and fills
    it. *)
Definition last_message_visible (w : container) : Prop :=
  let view_top := scrollTop w in
  let view_bottom := (scrollTop w + clientHeight w)%Z in
  (view_top <= last_message_bottom w <= view_bottom)%Z /\
  ((view_top <= last_message_top w)%Z \/
   (last_message_top w <= view_top /\
    view_bottom = last_message_bottom w)%Z).

End Widget.

(** ** Pages and bodies of the examples *)

(** A log of four messages in a viewport of 100 pixels, [hello] typed with
    blanks around it. *)
Definition busy_page : page :=
  {| userInput_value := lit "  hello ";
     chatWindow :=
       {| children := [message_node user (lit "a");
                       message_node agent (lit "b");
                       message_node user (lit "c");
                       message_node agent (lit "d")];
          scrollTop := 0;
          clientHeight := 100 |} |}.

(** The same page with only blanks typed. *)
Definition blank_page : page :=
  set_userInput_value (lit "   ") busy_page.

Definition submit_event : event := {| defaultPrevented := false |}.


(** The body [{"response": "hi"}]. *)
Definition response_body : @json line_browser :=
  JObj [(lit "response", JStr (lit "hi"))].

(** The request for [hello]; its body is [{"message":"hello"}]. *)
Definition hello_request : request :=
  {| url := lit "/api/chat";
     method := lit "POST";
     headers := [(lit "Content-Type", lit "application/json")];
     body := [123; 34; 109; 101; 115; 115; 97; 103; 101; 34; 58;
              34; 104; 101; 108; 108; 111; 34; 125] |}.

(** The value of the input field is a blank, [h], a quote, a line feed, a
    backslash, a lone leading surrogate and a blank. *)
Definition escapes_page : page :=
  set_userInput_value [32; 104; 34; 10; 92; 0xD800; 32] busy_page.

(** The request for that text: in its body the message is [h], then the
    quote as backslash and quote, the line feed as backslash and [n], the
    backslash doubled and the surrogate as [u] and [d800] after a
    backslash. *)
Definition escapes_request : request :=
  {| url := lit "/api/chat";
     method := lit "POST";
     headers := [(lit "Content-Type", lit "application/json")];
     body := [123; 34; 109; 101; 115; 115; 97; 103; 101; 34; 58; 34;
              104;
              92; 34;
              92; 110;
              92; 92;
              92; 117; 100; 56; 48; 48;
              34; 125] |}.

(** The body ["hi"], a string and not an object. *)
Definition string_body : @json line_browser := JStr (lit "hi").

(** The body [{"reply": {"text": "hi"}}], whose reply is an object. *)
Definition object_reply_body : @json line_browser :=
  JObj [(lit "reply", JObj [(lit "text", JStr (lit "hi"))])].

(** A server error; then a second message typed and submitted, the log
    scrolled back to its top while the request is under way, and the
    answer. *)
Definition two_submissions : list (@action line_browser) :=
  [Submit submit_event;
   FetchSettles 0 (Fulfilled {| status := 500 |});
   TypeText (lit " again");
   Submit submit_event;
   ScrollTo 0;
   FetchSettles 0 (Fulfilled {| status := 200 |});
   JsonSettles 0 (Fulfilled response_body)].

(** [hello] submitted and its request under way, the user having typed
    [next] and scrolled to the top. *)
Definition waiting_session : @session line_browser :=
  {| doc :=
       set_chatWindow
         (set_scrollTop 0
            (chatWindow (attached (message_node user (lit "hello")) busy_page)))
         (set_userInput_value (lit "next")
            (attached (message_node user (lit "hello")) busy_page));
     waiting :=
       [AwaitFetch
          (set_userInput_value []
             (attached (message_node user (lit "hello")) busy_page))
          hello_request after_fetch] |}.

Section Properties.

Context {B : Browser}.

(** ** Trimming *)

Lemma trim_start_nil (s : jstring) :
  trim_start s = [] <-> forallb is_white_space s = true.
Proof.
  induction s as [|c s IH]; simpl.
  - tauto.
  - destruct (is_white_space c); simpl.
    + exact IH.
    + split; discriminate.
Qed.

Lemma trim_end_nil (s : jstring) :
  trim_end s = [] <-> forallb is_white_space s = true.
Proof.
  unfold trim_end.
  assert (Hrev : forall l : jstring, rev l = [] <-> l = []).
  { intros l; split; intros H.
    - apply (f_equal (@rev N)) in H. now rewrite rev_involutive in H.
    - now subst. }
  rewrite Hrev, trim_start_nil, !forallb_forall.
  split; intros H x Hx; apply H.
  - now apply in_rev in Hx.
  - now apply in_rev.
Qed.

(** Whitespace in front is all that [trim_start] can remove: what is left
    is empty or starts with another character. *)
Lemma trim_start_head (s : jstring) :
  match trim_start s with
  | [] => True
  | c :: _ => is_white_space c = false
  end.
Proof.
  induction s as [|c s IH]; simpl; trivial.
  destruct (is_white_space c) eqn:E; simpl; trivial.
Qed.

(** The trimmed string is empty exactly for the strings of whitespace, the
    empty one among them. *)
Lemma trim_nil (s : jstring) :
  trim s = [] <-> forallb is_white_space s = true.
Proof.
  unfold trim. rewrite trim_end_nil, <- (trim_start_nil s).
  pose proof (trim_start_head s) as H.
  destruct (trim_start s) as [|c r]; simpl.
  - split; reflexivity.
  - rewrite H. simpl. split; discriminate.
Qed.

Lemma is_empty_false (s : jstring) : s <> [] -> is_empty s = false.
Proof. destruct s; [contradiction | reflexivity]. Qed.

(** ** [appendMessage] *)

Lemma appendMessage_text (v : value) (text : jstring) (sender : jstring)
    (d : page) :
  sender = user \/ sender = agent ->
  to_text v = Normal text ->
  appendMessage v sender d = Normal (attached (message_node sender text) d).
Proof.
  intros Hs Hv. unfold appendMessage, set_textContent. rewrite Hv.
  destruct Hs; subst sender; reflexivity.
Qed.

Lemma appendMessage_str (text sender : jstring) (d : page) :
  sender = user \/ sender = agent ->
  appendMessage (str text) sender d
  = Normal (attached (message_node sender text) d).
Proof. intros Hs. now apply appendMessage_text. Qed.

(** A throw comes from the conversion of the text or from the class
    tokens, before anything is attached. *)
Lemma appendMessage_throw_text (v : value) (e : js_error) (d : page) :
  to_text v = Throw e -> appendMessage v agent d = Throw e.
Proof.
  intros Hv. unfold appendMessage, set_textContent. now rewrite Hv.
Qed.

Lemma appends_one_attached (n : node) (d : page) :
  appends_one n d (attached n d).
Proof. repeat split. Qed.

Lemma at_bottom_attached (n : node) (d : page) :
  (0 <= clientHeight (chatWindow d))%Z ->
  at_bottom (chatWindow (attached n d)).
Proof.
  intros H. unfold at_bottom, attached, set_scrollTop, max_scrollTop,
    scrollHeight; simpl. lia.
Qed.

Lemma last_message_visible_attached (n : node) (d : page) :
  (0 <= clientHeight (chatWindow d))%Z ->
  (0 <= last_message_top (chatWindow (attached n d))
   <= last_message_bottom (chatWindow (attached n d)))%Z ->
  last_message_visible (chatWindow (attached n d)).
Proof.
  unfold last_message_visible, last_message_top, last_message_bottom,
    attached, set_scrollTop, max_scrollTop, scrollHeight.
  cbn [chatWindow set_chatWindow children scrollTop clientHeight appendChild].
  generalize (content_height (removelast (children (chatWindow d) ++ [n]))).
  generalize (content_height (children (chatWindow d) ++ [n])).
  intros bottom top Hc Hbox.
  split; [lia |].
  destruct (Z.le_gt_cases bottom (clientHeight (chatWindow d) + top));
    [left | right]; lia.
Qed.

(** ** The listener, one resumption at a time *)

Lemma catch_block_spec (err : js_error) (d : page) :
  catch_block err d
  = Finished (attached (message_node agent (lit "Error: " ++ message err)) d).
Proof.
  unfold catch_block.
  rewrite appendMessage_str by (right; reflexivity). reflexivity.
Qed.

(** Whatever [response.json()] settles to, the listener ends there with one
    message of the agent attached to the page it resumed on. *)
Lemma after_json_finishes (r : settled json) (d : page) :
  exists text,
    after_json r d = Finished (attached (message_node agent text) d).
Proof.
  destruct r as [data|err]; simpl.
  - destruct (reply_of data) as [v|e]; simpl.
    + destruct (to_text v) as [text|e] eqn:Hv.
      * exists text.
        rewrite (appendMessage_text v text) by (auto; right; reflexivity).
        reflexivity.
      * eexists. change (lit "agent") with agent.
        rewrite (appendMessage_throw_text v e) by assumption.
        apply catch_block_spec.
    + eexists. apply catch_block_spec.
  - eexists. apply catch_block_spec.
Qed.

Lemma ok_false (rs : response) :
  status rs < 200 \/ 299 < status rs -> ok rs = false.
Proof.
  intros H. unfold ok. apply andb_false_iff.
  destruct H; [left; apply N.leb_gt | right; apply N.leb_gt]; assumption.
Qed.

Lemma ok_true (rs : response) :
  200 <= status rs <= 299 -> ok rs = true.
Proof.
  intros [H1 H2]. unfold ok. apply andb_true_iff.
  split; apply N.leb_le; assumption.
Qed.

Lemma after_fetch_failed (r : settled response) (d : page) :
  failed r ->
  after_fetch r d
  = Finished
      (attached (message_node agent (lit "Error: " ++ failure_message r)) d).
Proof.
  destruct r as [rs|err]; simpl; intros H.
  - rewrite (ok_false rs H). simpl. apply catch_block_spec.
  - apply catch_block_spec.
Qed.

Lemma after_fetch_ok (rs : response) (d : page) :
  200 <= status rs <= 299 ->
  after_fetch (Fulfilled rs) d = AwaitJson d rs after_json.
Proof. intros H. simpl. now rewrite (ok_true rs H). Qed.

Lemma submit_handler_blank (e : event) (d : page) :
  trim (userInput_value d) = [] ->
  submit_handler e d = (preventDefault e, Finished d).
Proof. intros H. unfold submit_handler. now rewrite H. Qed.

Lemma submit_handler_text (e : event) (d : page) :
  trim (userInput_value d) <> [] ->
  submit_handler e d
  = (preventDefault e,
     AwaitFetch
       (set_userInput_value []
          (attached (message_node user (trim (userInput_value d))) d))
       (chat_request (trim (userInput_value d)))
       after_fetch).
Proof.
  intros H. unfold submit_handler.
  rewrite (is_empty_false _ H).
  rewrite appendMessage_str by (left; reflexivity). reflexivity.
Qed.

(** ** Runs *)

Ltac invert_run H :=
  inversion H; subst; clear H.

Lemma run_after_json env (r : settled json) (d : page) rqs t :
  run env (after_json r d) rqs t ->
  rqs = [] /\
  exists text, t = Finished (attached (message_node agent text) d).
Proof.
  destruct (after_json_finishes r d) as [text Ht]. rewrite Ht.
  intros H. invert_run H. split; [reflexivity | now exists text].
Qed.

Lemma run_after_fetch env (r : settled response) (d : page) rqs t :
  run env (after_fetch r d) rqs t ->
  rqs = [] /\
  exists d' text,
    (d' = d \/ env d d') /\
    t = Finished (attached (message_node agent text) d').
Proof.
  destruct r as [rs|err]; simpl.
  - destruct (ok rs); simpl.
    + intros H. invert_run H.
      match goal with
      | H : run _ (after_json _ _) _ _ |- _ =>
          apply run_after_json in H; destruct H as [-> [text ->]]
      end.
      split; [reflexivity |]. eexists _, text. split; [right; eassumption |].
      reflexivity.
    + rewrite catch_block_spec. intros H. invert_run H.
      split; [reflexivity |]. eexists _, _. split; [left; reflexivity |].
      reflexivity.
  - rewrite catch_block_spec. intros H. invert_run H.
    split; [reflexivity |]. eexists _, _. split; [left; reflexivity |].
    reflexivity.
Qed.

Lemma run_submit env (e : event) (d : page) rqs t :
  trim (userInput_value d) <> [] ->
  run env (snd (submit_handler e d)) rqs t ->
  rqs = [chat_request (trim (userInput_value d))] /\
  exists d1 d2 text,
    env (set_userInput_value []
           (attached (message_node user (trim (userInput_value d))) d)) d1 /\
    (d2 = d1 \/ env d1 d2) /\
    t = Finished (attached (message_node agent text) d2).
Proof.
  intros Hm. rewrite (submit_handler_text e d Hm). simpl.
  intros H. invert_run H.
  match goal with
  | H : run _ (after_fetch _ _) _ _ |- _ =>
      apply run_after_fetch in H;
      destruct H as [-> (d2 & text & Hd & ->)]
  end.
  split; [reflexivity |]. eexists _, d2, text.
  split; [eassumption |]. split; [assumption | reflexivity].
Qed.

(** A run exists whatever the promises settle to: the listener always comes
    to its end. *)
Lemma settle_runs (e : event) (d : page)
    (fr : settled response) (jr : settled json) :
  exists rqs,
    run eq (snd (submit_handler e d)) rqs
      (settle fr jr (snd (submit_handler e d))) /\
    exists fin, settle fr jr (snd (submit_handler e d)) = Finished fin.
Proof.
  destruct (list_eq_dec N.eq_dec (trim (userInput_value d)) []) as [Hm|Hm].
  - rewrite (submit_handler_blank e d Hm). simpl.
    exists []. split; [constructor | now eexists].
  - rewrite (submit_handler_text e d Hm).
    cbn [snd settle].
    destruct fr as [rs|err]; cbn [after_fetch].
    + destruct (ok rs) eqn:E; cbn [negb].
      * match goal with
        | |- context [after_json jr ?d1] =>
            destruct (after_json_finishes jr d1) as [text Ht]
        end.
        rewrite Ht. eexists. split; [| now eexists].
        eapply run_fetch with (r := Fulfilled rs); [reflexivity |].
        cbn [after_fetch]. rewrite E. cbn [negb].
        eapply run_json with (r := jr); [reflexivity |].
        rewrite Ht. constructor.
      * rewrite catch_block_spec. eexists. split; [| now eexists].
        eapply run_fetch with (r := Fulfilled rs); [reflexivity |].
        cbn [after_fetch]. rewrite E. cbn [negb].
        rewrite catch_block_spec. constructor.
    + rewrite catch_block_spec. eexists. split; [| now eexists].
      eapply run_fetch with (r := Rejected err); [reflexivity |].
      cbn [after_fetch]. rewrite catch_block_spec. constructor.
Qed.

Lemma ends_appending_attached (n : node) (d : page) :
  ends_appending (Finished (attached n d)) n d.
Proof. exists (attached n d). split; [reflexivity | apply appends_one_attached]. Qed.

Lemma get_field (data : json) (key : jstring) :
  data <> JNull -> get data key = Normal (field data key).
Proof.
  intros H. destruct data; try reflexivity. now elim H.
Qed.

Lemma reply_of_fields (data : json) :
  data <> JNull ->
  reply_of data
  = Normal
      (if truthy (field data (lit "reply"))
       then field data (lit "reply")
       else if truthy (field data (lit "response"))
       then field data (lit "response")
       else str (stringify data)).
Proof.
  intros H. unfold reply_of. rewrite !get_field by assumption. unfold bind.
  destruct (truthy (field data (lit "reply"))); [reflexivity |].
  destruct (truthy (field data (lit "response"))); reflexivity.
Qed.

(** Reading [reply] from the body [null] throws, and the catch block shows
    the message of that TypeError. *)
Lemma after_json_null (d : page) :
  after_json (Fulfilled JNull) d
  = Finished
      (attached
         (message_node agent
            (lit "Error: " ++ null_read_message (lit "reply"))) d).
Proof. simpl. apply catch_block_spec. Qed.


Lemma after_json_shows (data : json) (v : value) (text : jstring) (d : page) :
  reply_of data = Normal v ->
  to_text v = Normal text ->
  after_json (Fulfilled data) d
  = Finished (attached (message_node agent text) d).
Proof.
  intros Hr Hv. unfold after_json. rewrite Hr. unfold bind.
  rewrite (appendMessage_text v text) by (auto; right; reflexivity).
  reflexivity.
Qed.

(** ** The quoted string as JSON text *)

(** Induction that follows [quote_units], which looks two units ahead. *)
Lemma two_step_induction (P : jstring -> Prop) :
  P [] ->
  (forall c, P [c]) ->
  (forall c c' r, P r -> P (c' :: r) -> P (c :: c' :: r)) ->
  forall s, P s.
Proof.
  intros H0 H1 H2 s.
  assert (H : P s /\ forall c, P (c :: s)).
  { induction s as [|c' r [IH IH']]; [split; auto |].
    split; [apply IH' | intros c; apply H2; auto]. }
  apply H.
Qed.

Lemma quote_units_step (c c' : N) (r : jstring) :
  quote_units (c :: c' :: r)
  = if is_leading_surrogate c && is_trailing_surrogate c'
    then c :: c' :: quote_units r
    else quote_unit c ++ quote_units (c' :: r).
Proof. reflexivity. Qed.

(** A code unit is its four hexadecimal digits. *)
Lemma four_digits (c : N) :
  c < 65536 ->
  4096 * ((c / 4096) mod 16) + 256 * ((c / 256) mod 16)
  + 16 * ((c / 16) mod 16) + c mod 16 = c.
Proof.
  intros H.
  pose proof (N.div_mod c 16 ltac:(discriminate)) as H0.
  pose proof (N.div_mod (c / 16) 16 ltac:(discriminate)) as H1.
  pose proof (N.div_mod (c / 16 / 16) 16 ltac:(discriminate)) as H2.
  rewrite !N.Div0.div_div in H1, H2.
  change (16 * 16) with 256 in *.
  rewrite ?N.Div0.div_div in H2. change (256 * 16) with 4096 in *.
  assert (H3 : c / 4096 < 16) by (apply N.Div0.div_lt_upper_bound; exact H).
  rewrite (N.mod_small (c / 4096) 16 H3).
  generalize dependent (c mod 16). generalize dependent ((c / 16) mod 16).
  generalize dependent ((c / 256) mod 16).
  intros. lia.
Qed.

Lemma hex_digit_is_hex (n : N) :
  n < 16 ->
  is_hex_digit (hex_digit n) = true /\ hex_value (hex_digit n) = n.
Proof.
  intros H. unfold is_hex_digit, hex_value, hex_digit.
  destruct (N.ltb_spec n 10);
    repeat match goal with
           | |- context [?a <=? ?b] => destruct (N.leb_spec a b)
           end;
    cbn [andb orb]; split; try reflexivity; lia.
Qed.

Lemma read_unicode_escape (c : N) (t : jstring) :
  c < 65536 ->
  read_json_chars (unicode_escape c ++ t)
  = option_map (cons c) (read_json_chars t).
Proof.
  intros H. unfold unicode_escape. cbn [app read_json_chars].
  change (92 =? 92) with true. change (117 =? 117) with true. cbn iota.
  assert (Hd : forall n, is_hex_digit (hex_digit (n mod 16)) = true /\
                         hex_value (hex_digit (n mod 16)) = n mod 16).
  { intros n. apply hex_digit_is_hex. apply N.mod_lt. discriminate. }
  rewrite !(proj1 (Hd _)), !(proj2 (Hd _)). cbn [andb].
  rewrite !N.shiftr_div_pow2.
  change (2 ^ 12) with 4096. change (2 ^ 8) with 256. change (2 ^ 4) with 16.
  now rewrite four_digits.
Qed.

Lemma read_plain (c : N) (t : jstring) :
  32 <= c -> c <> 34 -> c <> 92 ->
  read_json_chars (c :: t) = option_map (cons c) (read_json_chars t).
Proof.
  intros H1 H2 H3. cbn [read_json_chars].
  destruct (N.eqb_spec c 92); [contradiction |].
  destruct (N.ltb_spec c 32); [lia |].
  destruct (N.eqb_spec c 34); [contradiction | reflexivity].
Qed.

Lemma read_quote_unit (c : N) (t : jstring) :
  read_json_chars (quote_unit c ++ t)
  = option_map (cons c) (read_json_chars t).
Proof.
  unfold quote_unit.
  repeat match goal with
         | |- context [if ?x =? ?y then _ else _] =>
             destruct (N.eqb_spec x y); [subst; reflexivity |]
         end.
  destruct (N.ltb_spec c 32); [apply read_unicode_escape; lia |].
  destruct (is_leading_surrogate c || is_trailing_surrogate c) eqn:E.
  - apply read_unicode_escape.
    unfold is_leading_surrogate, is_trailing_surrogate in E.
    apply orb_true_iff in E.
    destruct E as [E|E]; apply andb_true_iff in E; destruct E as [_ E];
      apply N.leb_le in E; lia.
  - now apply read_plain.
Qed.

(** What [quote_units] writes is the inside of a JSON string, and the
    string it denotes is the one quoted. *)
Lemma read_quote_units (s : jstring) :
  read_json_chars (quote_units s) = Some s.
Proof.
  induction s as [|c|c c' r IHr IHc] using two_step_induction.
  - reflexivity.
  - cbn [quote_units]. rewrite <- (app_nil_r (quote_unit c)).
    now rewrite read_quote_unit.
  - rewrite quote_units_step.
    destruct (is_leading_surrogate c && is_trailing_surrogate c') eqn:E.
    + apply andb_true_iff in E. destruct E as [E1 E2].
      unfold is_leading_surrogate in E1. unfold is_trailing_surrogate in E2.
      apply andb_true_iff in E1, E2.
      destruct E1 as [E1 _]. destruct E2 as [E2 _].
      apply N.leb_le in E1, E2.
      rewrite read_plain by lia. rewrite read_plain by lia.
      now rewrite IHr.
    + rewrite read_quote_unit. now rewrite IHc.
Qed.

Lemma well_formed_after_plain (a b : jstring) :
  forallb (fun c => negb (is_leading_surrogate c || is_trailing_surrogate c))
    a = true ->
  well_formed_utf16 (a ++ b) = well_formed_utf16 b.
Proof.
  induction a as [|c a IH]; simpl; [reflexivity |].
  intros H. apply andb_true_iff in H. destruct H as [Hc Ha].
  apply negb_true_iff, orb_false_iff in Hc. destruct Hc as [-> ->].
  simpl. now apply IH.
Qed.

Lemma quote_unit_plain (c : N) :
  forallb (fun c => negb (is_leading_surrogate c || is_trailing_surrogate c))
    (quote_unit c) = true.
Proof.
  unfold quote_unit.
  repeat match goal with
         | |- context [if ?x =? ?y then _ else _] =>
             destruct (N.eqb_spec x y); [reflexivity |]
         end.
  assert (Hlow : forall u, u < 128 ->
             negb (is_leading_surrogate u || is_trailing_surrogate u) = true).
  { intros u Hu. unfold is_leading_surrogate, is_trailing_surrogate.
    destruct (N.leb_spec 0xD800 u); [lia |].
    destruct (N.leb_spec 0xDC00 u); [lia | reflexivity]. }
  assert (Hhex : forall n, n < 16 -> hex_digit n < 128).
  { intros k Hk. unfold hex_digit. destruct (k <? 10); lia. }
  assert (Hesc : forallb
            (fun c => negb (is_leading_surrogate c || is_trailing_surrogate c))
            (unicode_escape c) = true).
  { unfold unicode_escape. cbn [forallb].
    rewrite !Hlow; try reflexivity; try (apply Hhex, N.mod_lt; discriminate);
      lia. }
  destruct (N.ltb_spec c 32); [exact Hesc |].
  destruct (is_leading_surrogate c || is_trailing_surrogate c) eqn:E;
    [exact Hesc |].
  cbn [forallb]. now rewrite E.
Qed.

(** What [quote_units] writes has no lone surrogate. *)
Lemma well_formed_quote_units (s t : jstring) :
  well_formed_utf16 (quote_units s ++ t) = well_formed_utf16 t.
Proof.
  induction s as [|c|c c' r IHr IHc] using two_step_induction.
  - reflexivity.
  - cbn [quote_units]. apply well_formed_after_plain, quote_unit_plain.
  - rewrite quote_units_step.
    destruct (is_leading_surrogate c && is_trailing_surrogate c') eqn:E.
    + apply andb_true_iff in E. destruct E as [E1 E2].
      cbn [app well_formed_utf16]. now rewrite E1, E2, IHr.
    + rewrite <- app_assoc.
      rewrite (well_formed_after_plain _ _ (quote_unit_plain c)).
      exact IHc.
Qed.

(** ** The claims *)


(** C2: when the trimmed value of the input field is empty, that is when
    the value is empty or all whitespace, the listener returns at once: the
    page is as it was, input field and log, nothing is awaited, and no run
    of it issues a request. *)
Theorem blank_submission_is_ignored (e : event) (d : page) :
  trim (userInput_value d) = [] ->
  forallb is_white_space (userInput_value d) = true /\
  submit_handler e d = (preventDefault e, Finished d) /\
  forall env rqs t,
    run env (snd (submit_handler e d)) rqs t -> rqs = [] /\ t = Finished d.
Proof.
  intros H. split; [now apply trim_nil |].
  rewrite (submit_handler_blank e d H). split; [reflexivity |].
  intros env rqs t Hr. simpl in Hr. invert_run Hr. now split.
Qed.

(** C3: when the trimmed value of the input field is not empty, the
    listener, before it awaits anything, has appended one message of the
    user with the trimmed value as text and has set the value of the input
    field to the empty string; and the whole submission, left alone, adds
    to the log that message and one message of the agent, nothing else. *)
Theorem submission_appends_user_message (e : event) (d : page) :
  trim (userInput_value d) <> [] ->
  (exists d1 rq resume,
      snd (submit_handler e d) = AwaitFetch d1 rq resume /\
      children (chatWindow d1)
      = children (chatWindow d)
        ++ [message_node user (trim (userInput_value d))] /\
      userInput_value d1 = []) /\
  forall fr jr,
  exists fin text,
    settle fr jr (snd (submit_handler e d)) = Finished fin /\
    children (chatWindow fin)
    = children (chatWindow d)
      ++ [message_node user (trim (userInput_value d));
          message_node agent text].
Proof.
  intros Hm. split.
  - rewrite (submit_handler_text e d Hm). simpl.
    eexists _, _, _. repeat split.
  - intros fr jr.
    destruct (settle_runs e d fr jr) as (rqs & Hrun & _).
    apply (run_submit eq e d _ _ Hm) in Hrun.
    destruct Hrun as (_ & d1 & d2 & text & H1 & H2 & Ht).
    assert (d2 = d1) by (destruct H2; congruence). subst d2 d1.
    rewrite Ht. eexists _, text. split; [reflexivity |].
    simpl. now rewrite <- app_assoc.
Qed.



(** C6: a submission whose trimmed text is not empty issues its request
    before its first [await], and every run of it issues that request and
    no other: a POST to [/api/chat] with the one header
    [Content-Type: application/json] and a body that is the JSON text of
    the object whose one property [message] is the trimmed text: an opening
    brace, the key between quotes, a colon, a quote, characters that a JSON
    reader takes as a string and reads as the trimmed text, a quote and a
    closing brace, in well-formed UTF-16. *)
Theorem submission_posts_one_request (e : event) (d : page) :
  trim (userInput_value d) <> [] ->
  let m := trim (userInput_value d) in
  let rq :=
    {| url := lit "/api/chat";
       method := lit "POST";
       headers := [(lit "Content-Type", lit "application/json")];
       body := stringify (JObj [(lit "message", JStr m)]) |} in
  (exists d1 resume, snd (submit_handler e d) = AwaitFetch d1 rq resume) /\
  (forall env rqs t,
      run env (snd (submit_handler e d)) rqs t -> rqs = [rq]) /\
  (exists q,
      body rq
      = [123; 34; 109; 101; 115; 115; 97; 103; 101; 34; 58; 34]
        ++ q ++ [34; 125] /\
      read_json_chars q = Some m) /\
  well_formed_utf16 (body rq) = true.
Proof.
  intros Hm m rq.
  assert (Hbody : body rq
                  = [123; 34; 109; 101; 115; 115; 97; 103; 101; 34; 58; 34]
                    ++ quote_units m ++ [34; 125]).
  { change (body rq)
      with ([123; 34; 109; 101; 115; 115; 97; 103; 101; 34; 58; 34]
            ++ (quote_units m ++ [34]) ++ [125]).
    now rewrite <- (app_assoc (quote_units m)). }
  split; [| split; [| split]].
  - rewrite (submit_handler_text e d Hm). simpl. now eexists _, _.
  - intros env rqs t Hr. now apply (run_submit env e d _ _ Hm) in Hr.
  - exists (quote_units m). split; [exact Hbody | apply read_quote_units].
  - rewrite Hbody.
    rewrite (well_formed_after_plain
               [123; 34; 109; 101; 115; 115; 97; 103; 101; 34; 58; 34])
      by reflexivity.
    rewrite well_formed_quote_units. reflexivity.
Qed.

(** C7, as amended: whenever [appendMessage] appends a message, the new
    element is the last one of the log and the log is scrolled to its
    bottom: the script assigns the full height of the content to the scroll
    position, the container clamps it to its largest scroll offset, the
    height of the content less the height of the viewport, and so the
    viewport ends where the content ends and the message just appended is
    visible, its end in the viewport and its beginning too unless it is
    taller than the viewport. *)
Theorem append_scrolls_to_bottom (text : value) (sender : jstring)
    (d d' : page) :
  (0 <= clientHeight (chatWindow d))%Z ->
  appendMessage text sender d = Normal d' ->
  (exists n,
      children (chatWindow d') = children (chatWindow d) ++ [n] /\
      to_text text = Normal (textContent n)) /\
  scrollTop (chatWindow d')
  = (scrollHeight (chatWindow d') - clientHeight (chatWindow d'))%Z /\
  at_bottom (chatWindow d') /\
  ((0 <= last_message_top (chatWindow d')
    <= last_message_bottom (chatWindow d'))%Z ->
   last_message_visible (chatWindow d')).
Proof.
  intros Hc H. unfold appendMessage in H.
  destruct (classList_add _ _) as [n1|e1]; [| discriminate].
  simpl in H. unfold set_textContent in H.
  destruct (to_text text) as [s|e2]; [| discriminate].
  simpl in H. injection H as <-.
  split; [eexists; split; reflexivity |].
  match goal with
  | |- context [appendChild ?n _] =>
      pose proof (at_bottom_attached n d Hc) as Hb;
      pose proof (last_message_visible_attached n d Hc) as Hv
  end.
  split; [| split; [exact Hb | exact Hv]].
  unfold at_bottom in Hb. unfold attached in Hb. simpl in *. lia.
Qed.

(** No exception leaves the listener, in any run of any submission. *)
Lemma run_ends_finished env (e : event) (d : page) rqs t :
  run env (snd (submit_handler e d)) rqs t -> exists fin, t = Finished fin.
Proof.
  destruct (list_eq_dec N.eq_dec (trim (userInput_value d)) []) as [Hm|Hm].
  - rewrite (submit_handler_blank e d Hm). simpl.
    intros H. invert_run H. now eexists.
  - intros H. apply (run_submit env e d _ _ Hm) in H.
    destruct H as (_ & d1 & d2 & text & _ & _ & ->). now eexists.
Qed.

(** C8: a failed network call, no response or a response with a status
    outside 200 to 299, leaves nothing behind but one message of the agent
    that starts with [Error: ]: the listener ends, the input field is as it
    was, and no run of the listener ends with an exception leaving it; and
    the next submission on that page goes
    as any submission does, ignored when blank, and otherwise appended,
    cleared and posted. The same holds when reading the body fails. *)
Theorem failure_is_contained (r : settled response) (d : page) :
  failed r ->
  exists d1,
    after_fetch r d = Finished d1 /\
    appends_one (message_node agent (lit "Error: " ++ failure_message r))
      d d1 /\
    (forall err d2,
        ends_appending (after_json (Rejected err) d2)
          (message_node agent (lit "Error: " ++ message err)) d2) /\
    (forall env e0 d0 rqs t,
        run env (snd (submit_handler e0 d0)) rqs t ->
        exists fin, t = Finished fin) /\
    forall e v,
      let next := set_userInput_value v d1 in
      (trim v = [] ->
       submit_handler e next = (preventDefault e, Finished next)) /\
      (trim v <> [] ->
       submit_handler e next
       = (preventDefault e,
          AwaitFetch
            (set_userInput_value [] (attached (message_node user (trim v)) next))
            (chat_request (trim v))
            after_fetch)).
Proof.
  intros H. eexists. split; [now apply after_fetch_failed |].
  split; [apply appends_one_attached |]. split.
  - intros err d2. simpl. rewrite catch_block_spec.
    apply ends_appending_attached.
  - split; [intros env e0 d0 rqs t; apply run_ends_finished |].
    intros e v next. split; intros Hv.
    + now apply submit_handler_blank.
    + now apply (submit_handler_text e next).
Qed.


(** C10: for a submission whose trimmed text is not empty, the page the
    listener leaves when it issues the request and awaits it has the user
    message appended and the input field cleared; and in every run, while
    other activity only adds to the log, the listener ends with the user
    message in the log before the message of the agent it appends for the
    same submission. *)
Theorem user_message_precedes_agent_message (e : event) (d : page) :
  trim (userInput_value d) <> [] ->
  let m := trim (userInput_value d) in
  (exists d1 rq resume,
      snd (submit_handler e d) = AwaitFetch d1 rq resume /\
      children (chatWindow d1)
      = children (chatWindow d) ++ [message_node user m] /\
      userInput_value d1 = []) /\
  forall rqs t,
    run log_extends (snd (submit_handler e d)) rqs t ->
    exists fin between text,
      t = Finished fin /\
      children (chatWindow fin)
      = children (chatWindow d) ++ [message_node user m] ++ between
        ++ [message_node agent text].
Proof.
  intros Hm m. split.
  - rewrite (submit_handler_text e d Hm). simpl.
    eexists _, _, _. repeat split.
  - intros rqs t Hr.
    apply (run_submit log_extends e d _ _ Hm) in Hr.
    destruct Hr as (_ & d1 & d2 & text & [more1 H1] & H2 & ->).
    simpl in H1.
    destruct H2 as [-> | [more2 H2]].
    + exists (attached (message_node agent text) d1), more1, text.
      split; [reflexivity |]. simpl. rewrite H1.
      now rewrite <- !app_assoc.
    + exists (attached (message_node agent text) d2), (more1 ++ more2), text.
      split; [reflexivity |]. simpl. rewrite H2, H1.
      now rewrite <- !app_assoc.
Qed.

(** ** Further properties of the strings *)

Lemma jstring_eqb_eq (s t : jstring) : jstring_eqb s t = true <-> s = t.
Proof.
  revert t. induction s as [|c s IH]; intros [|d t]; simpl;
    try (split; [discriminate | discriminate]); [tauto |].
  rewrite andb_true_iff, N.eqb_eq, IH.
  split; [intros [-> ->]; reflexivity | intros H; injection H; auto].
Qed.

Lemma unhex_hex (n : N) : n < 16 -> unhex_digit (hex_digit n) = n.
Proof.
  intros H. unfold unhex_digit, hex_digit.
  destruct (N.ltb_spec n 10).
  - destruct (N.ltb_spec (48 + n) 58); lia.
  - destruct (N.ltb_spec (87 + n) 58); lia.
Qed.

Lemma unquote_unicode_escape (c : N) (t : jstring) :
  c < 65536 ->
  unquote_units (unicode_escape c ++ t) = c :: unquote_units t.
Proof.
  intros H. unfold unicode_escape. cbn [app unquote_units].
  change (92 =? 92) with true. change (117 =? 117) with true. cbn iota.
  f_equal. rewrite !unhex_hex by (apply N.mod_lt; discriminate).
  rewrite !N.shiftr_div_pow2.
  change (2 ^ 12) with 4096. change (2 ^ 8) with 256. change (2 ^ 4) with 16.
  now apply four_digits.
Qed.

Lemma unquote_literal (c : N) (t : jstring) :
  c <> 92 -> unquote_units (c :: t) = c :: unquote_units t.
Proof.
  intros H. cbn [unquote_units].
  destruct (N.eqb_spec c 92); [contradiction | reflexivity].
Qed.

Lemma unquote_quote_unit (c : N) (t : jstring) :
  unquote_units (quote_unit c ++ t) = c :: unquote_units t.
Proof.
  unfold quote_unit.
  repeat match goal with
         | |- context [if ?x =? ?y then _ else _] =>
             destruct (N.eqb_spec x y); [subst; reflexivity |]
         end.
  destruct (N.ltb_spec c 32); [apply unquote_unicode_escape; lia |].
  destruct (is_leading_surrogate c || is_trailing_surrogate c) eqn:E.
  - apply unquote_unicode_escape.
    unfold is_leading_surrogate, is_trailing_surrogate in E.
    apply orb_true_iff in E.
    destruct E as [E|E]; apply andb_true_iff in E; destruct E as [_ E];
      apply N.leb_le in E; lia.
  - now apply unquote_literal.
Qed.

(** The escapes lose nothing: reading the quoted units back gives the
    string. *)
Lemma unquote_quote_units (s : jstring) : unquote_units (quote_units s) = s.
Proof.
  induction s as [|c|c c' r IHr IHc] using two_step_induction.
  - reflexivity.
  - cbn [quote_units]. rewrite <- (app_nil_r (quote_unit c)).
    now rewrite unquote_quote_unit.
  - rewrite quote_units_step.
    destruct (is_leading_surrogate c && is_trailing_surrogate c') eqn:E.
    + apply andb_true_iff in E. destruct E as [E1 E2].
      unfold is_leading_surrogate in E1. unfold is_trailing_surrogate in E2.
      apply andb_true_iff in E1, E2.
      destruct E1 as [E1 _]. destruct E2 as [E2 _].
      apply N.leb_le in E1, E2.
      rewrite unquote_literal by lia. rewrite unquote_literal by lia.
      now rewrite IHr.
    + rewrite unquote_quote_unit. now rewrite IHc.
Qed.

Lemma quote_unit_printable (c : N) : Forall (fun u => 32 <= u) (quote_unit c).
Proof.
  unfold quote_unit.
  repeat match goal with
         | |- context [if ?x =? ?y then _ else _] =>
             destruct (N.eqb_spec x y);
             [repeat constructor; discriminate |]
         end.
  assert (Hhex : forall n, 32 <= hex_digit n).
  { intros k. unfold hex_digit. destruct (k <? 10); lia. }
  assert (Hesc : Forall (fun u => 32 <= u) (unicode_escape c)).
  { unfold unicode_escape. repeat constructor; try discriminate; apply Hhex. }
  destruct (N.ltb_spec c 32); [exact Hesc |].
  destruct (is_leading_surrogate c || is_trailing_surrogate c);
    [exact Hesc | repeat constructor; assumption].
Qed.

Lemma quote_units_printable (s : jstring) :
  Forall (fun u => 32 <= u) (quote_units s).
Proof.
  induction s as [|c|c c' r IHr IHc] using two_step_induction.
  - constructor.
  - apply quote_unit_printable.
  - rewrite quote_units_step.
    destruct (is_leading_surrogate c && is_trailing_surrogate c') eqn:E.
    + apply andb_true_iff in E. destruct E as [E1 E2].
      unfold is_leading_surrogate in E1. unfold is_trailing_surrogate in E2.
      apply andb_true_iff in E1, E2.
      destruct E1 as [E1 _]. destruct E2 as [E2 _].
      apply N.leb_le in E1, E2.
      repeat constructor; try lia. exact IHr.
    + apply Forall_app. split; [apply quote_unit_printable | exact IHc].
Qed.

(** What [trim_start] removes is whitespace in front. *)
Lemma trim_start_split (s : jstring) :
  exists pre,
    s = pre ++ trim_start s /\ forallb is_white_space pre = true.
Proof.
  induction s as [|c s (pre & Hs & Hp)]; simpl.
  - now exists [].
  - destruct (is_white_space c) eqn:E.
    + exists (c :: pre). simpl. rewrite E, Hp. split; [now f_equal | reflexivity].
    + now exists [].
Qed.

Lemma forallb_rev (f : N -> bool) (l : jstring) :
  forallb f (rev l) = forallb f l.
Proof.
  induction l as [|c l IH]; simpl; [reflexivity |].
  rewrite forallb_app, IH. simpl. rewrite andb_true_r. apply andb_comm.
Qed.

(** What [trim_end] removes is whitespace at the end, and what it leaves
    does not end in whitespace. *)
Lemma trim_end_split (s : jstring) :
  exists post,
    s = trim_end s ++ post /\ forallb is_white_space post = true /\
    match rev (trim_end s) with
    | [] => True
    | c :: _ => is_white_space c = false
    end.
Proof.
  unfold trim_end.
  destruct (trim_start_split (rev s)) as (pre & Hs & Hp).
  exists (rev pre). repeat split.
  - rewrite <- rev_app_distr, <- Hs. now rewrite rev_involutive.
  - now rewrite forallb_rev.
  - rewrite rev_involutive. apply trim_start_head.
Qed.

(** [trim] takes whitespace from both ends and nothing else: the value is
    whitespace, the trimmed text, whitespace, and the trimmed text neither
    starts nor ends with whitespace. *)
Lemma trim_split (s : jstring) :
  exists pre post,
    s = pre ++ trim s ++ post /\
    forallb is_white_space pre = true /\
    forallb is_white_space post = true /\
    match trim s with
    | [] => True
    | c :: _ => is_white_space c = false
    end /\
    match rev (trim s) with
    | [] => True
    | c :: _ => is_white_space c = false
    end.
Proof.
  unfold trim.
  destruct (trim_start_split s) as (pre & Hs & Hp).
  destruct (trim_end_split (trim_start s)) as (post & Ht & Hq & Hl).
  exists pre, post. repeat split; trivial.
  - now rewrite <- Ht.
  - pose proof (trim_start_head s) as Hh. rewrite Ht in Hh.
    destruct (trim_end (trim_start s)); [trivial | exact Hh].
Qed.

(** Trimming a trimmed string changes nothing. *)
Lemma trim_idempotent (s : jstring) : trim (trim s) = trim s.
Proof.
  destruct (trim_split s) as (_ & _ & _ & _ & _ & Hh & Hl).
  assert (Hstart : forall t : jstring,
             match t with [] => True | c :: _ => is_white_space c = false end ->
             trim_start t = t).
  { intros [|c t] H; simpl; [reflexivity | now rewrite H]. }
  unfold trim at 1. rewrite (Hstart _ Hh).
  unfold trim_end. rewrite (Hstart _ Hl). apply rev_involutive.
Qed.

(** ** Further properties of the script *)

(** X1: The default action of the form, sending it and loading the answer as a
    new page, is cancelled at every submission, a blank one too. *)
Theorem submission_is_always_cancelled (e : event) (d : page) :
  defaultPrevented (fst (submit_handler e d)) = true /\
  fst (submit_handler e d) = preventDefault e.
Proof.
  destruct (list_eq_dec N.eq_dec (trim (userInput_value d)) []) as [Hm|Hm].
  - now rewrite (submit_handler_blank e d Hm).
  - now rewrite (submit_handler_text e d Hm).
Qed.

(** X2: The text the listener takes from the input field is the value less the
    whitespace at its two ends: the value is whitespace, the text,
    whitespace; the text neither starts nor ends with whitespace, and it is
    what is appended for the user and what is posted. Trimming it again
    changes nothing, so the text alone as input posts the same request. *)
Theorem submitted_text_is_value_without_outer_whitespace (e : event)
    (d : page) :
  trim (userInput_value d) <> [] ->
  let m := trim (userInput_value d) in
  (exists pre post,
      userInput_value d = pre ++ m ++ post /\
      forallb is_white_space pre = true /\
      forallb is_white_space post = true) /\
  (exists first last middle middle',
      m = first :: middle /\ m = middle' ++ [last] /\
      is_white_space first = false /\ is_white_space last = false) /\
  snd (submit_handler e d)
  = AwaitFetch
      (set_userInput_value [] (attached (message_node user m) d))
      (chat_request m) after_fetch /\
  chat_request (trim m) = chat_request m.
Proof.
  intros Hm m.
  destruct (trim_split (userInput_value d))
    as (pre & post & Hv & Hp & Hq & Hh & Hl).
  fold m in Hv, Hh, Hl. repeat split.
  - now exists pre, post.
  - destruct m as [|first middle] eqn:Em; [contradiction |].
    destruct (rev (first :: middle)) as [|last r] eqn:Er.
    + apply (f_equal (@rev N)) in Er. rewrite rev_involutive in Er.
      discriminate.
    + exists first, last, middle, (rev r). repeat split; trivial.
      apply (f_equal (@rev N)) in Er. rewrite rev_involutive in Er.
      exact Er.
  - now rewrite (submit_handler_text e d Hm).
  - unfold m. now rewrite trim_idempotent.
Qed.

Lemma request_body_shape (m : jstring) :
  body (chat_request m)
  = lit "{" ++ quote_json_string (lit "message") ++ lit ":"
    ++ [34] ++ quote_units m ++ [34; 125].
Proof.
  change (body (chat_request m))
    with (lit "{" ++ quote_json_string (lit "message") ++ lit ":"
          ++ [34] ++ (quote_units m ++ [34]) ++ [125]).
  now rewrite <- (app_assoc (quote_units m)).
Qed.

(** X3: The body of the request gives the message back: the message stands in
    it between quotes with its escapes, the escapes read back give the
    message, and so two messages with the same body are the same
    message. *)
Theorem request_body_determines_message (m : jstring) :
  body (chat_request m)
  = lit "{" ++ quote_json_string (lit "message") ++ lit ":"
    ++ [34] ++ quote_units m ++ [34; 125] /\
  unquote_units (quote_units m) = m /\
  forall m', body (chat_request m') = body (chat_request m) -> m' = m.
Proof.
  split; [apply request_body_shape |].
  split; [apply unquote_quote_units |].
  intros m' H. rewrite !request_body_shape in H.
  repeat apply app_inv_head in H.
  apply app_inv_tail in H.
  rewrite <- (unquote_quote_units m), <- (unquote_quote_units m').
  now f_equal.
Qed.

(** X4: The body of the request has no control character, whatever the user
    typed: line feeds, tabs and the like are written as escapes. *)
Theorem request_body_has_no_control_character (m : jstring) :
  Forall (fun u => 32 <= u) (body (chat_request m)).
Proof.
  rewrite request_body_shape, !Forall_app.
  repeat split; try (repeat constructor; discriminate).
  apply quote_units_printable.
Qed.

(** X5: Whatever [response.json()] settles to, any JSON value or a rejection,
    the listener ends there, no exception leaves it, and what it did to the
    page it resumed on is to append exactly one message of the agent: the
    input field keeps what the user has typed meanwhile. *)
Theorem every_body_gives_one_agent_message (r : settled json) (d : page) :
  exists text,
    ends_appending (after_json r d) (message_node agent text) d /\
    forall env rqs t,
      run env (after_json r d) rqs t ->
      rqs = [] /\ t = Finished (attached (message_node agent text) d).
Proof.
  destruct (after_json_finishes r d) as [text Ht].
  exists text. rewrite Ht. split; [apply ends_appending_attached |].
  intros env rqs t H. invert_run H. now split.
Qed.

(** X6: A body that is not an object has no fields: for [null] reading [reply]
    throws and the text shown is [Error: ] with the message of that
    TypeError; every other such body, a string, a number, a boolean or an
    array, is shown serialized, a string with its quotes. *)
Theorem body_without_fields (data : json) (d : page) :
  (forall ps, data <> JObj ps) ->
  ends_appending (after_json (Fulfilled data) d)
    (message_node agent
       match data with
       | JNull => lit "Error: " ++ null_read_message (lit "reply")
       | _ => stringify data
       end) d.
Proof.
  intros Hobj.
  assert (Hraw : data <> JNull ->
                 after_json (Fulfilled data) d
                 = Finished (attached (message_node agent (stringify data)) d)).
  { intros Hn.
    apply (after_json_shows data (str (stringify data))); [| reflexivity].
    rewrite reply_of_fields by assumption.
    destruct data; try reflexivity. now elim (Hobj properties). }
  destruct data;
    try (rewrite Hraw by discriminate; apply ends_appending_attached).
  rewrite after_json_null. apply ends_appending_attached.
Qed.

(** X7: A [reply] that is itself an object is shown as [[object Object]], and
    when it has a property [toString] of its own, which cannot be called,
    the conversion throws inside [appendMessage] before anything is
    attached, and the text shown is [Error: ] with the message of that
    TypeError. *)
Theorem reply_object_text (data : json) (qs : list (jstring * json))
    (d : page) :
  field data (lit "reply") = Some (JObj qs) ->
  ends_appending (after_json (Fulfilled data) d)
    (message_node agent
       match own_property (lit "toString") qs with
       | None => lit "[object Object]"
       | Some _ => lit "Error: " ++ to_primitive_message
       end) d.
Proof.
  intros Hf.
  assert (Hn : data <> JNull) by (intros ->; discriminate).
  assert (Hr : reply_of data = Normal (Some (JObj qs))).
  { rewrite reply_of_fields by assumption. now rewrite Hf. }
  destruct (own_property (lit "toString") qs) as [v|] eqn:E.
  - unfold after_json. rewrite Hr. cbn [bind].
    change (lit "agent") with agent.
    rewrite (appendMessage_throw_text _ (TypeError to_primitive_message))
      by (simpl; now rewrite E).
    rewrite catch_block_spec. apply ends_appending_attached.
  - rewrite (after_json_shows data (Some (JObj qs)) (lit "[object Object]"));
      [apply ends_appending_attached | exact Hr | simpl; now rewrite E].
Qed.

Lemma class_tokens (sender : jstring) :
  add_token (add_token [] (lit "chat-message")) sender
  = if jstring_eqb sender (lit "chat-message")
    then [lit "chat-message"]
    else [lit "chat-message"; sender].
Proof.
  unfold add_token. simpl.
  destruct (jstring_eqb sender (lit "chat-message")); reflexivity.
Qed.

(** X8: [appendMessage] with a text that is a string succeeds exactly for the
    senders that are class tokens: it appends a [div] with the class
    [chat-message], the sender as second class unless it is that same
    token, and the text as it is. An empty sender is a SyntaxError and one
    with whitespace an InvalidCharacterError, whose message is the
    engine's for that token, thrown before anything is attached. *)
Theorem appendMessage_by_sender (text sender : jstring) (d : page) :
  (valid_token sender ->
   appendMessage (str text) sender d
   = Normal
       (attached
          {| localName := lit "div";
             classList :=
               if jstring_eqb sender (lit "chat-message")
               then [lit "chat-message"]
               else [lit "chat-message"; sender];
             textContent := text |} d)) /\
  (sender = [] ->
   appendMessage (str text) sender d
   = Throw (DOMException (lit "SyntaxError") empty_token_message)) /\
  (sender <> [] ->
   existsb is_ascii_whitespace sender = true ->
   appendMessage (str text) sender d
   = Throw (DOMException (lit "InvalidCharacterError")
              (token_whitespace_message sender))).
Proof.
  unfold appendMessage, classList_add.
  cbn [validate_tokens].
  change (is_empty (lit "chat-message")) with false.
  change (existsb is_ascii_whitespace (lit "chat-message")) with false.
  cbn iota. repeat split.
  - intros [Hne Hws]. rewrite (is_empty_false _ Hne), Hws. cbn [bind].
    unfold set_textContent. cbn [to_text to_string bind str].
    cbn [fold_left classList createElement].
    rewrite class_tokens. reflexivity.
  - intros ->. reflexivity.
  - intros Hne Hws. rewrite (is_empty_false _ Hne), Hws. reflexivity.
Qed.

(** ** Sessions *)

Lemma nth_error_cut {A} (l : list A) (i : nat) (x : A) :
  nth_error l i = Some x -> l = firstn i l ++ x :: skipn (S i) l.
Proof.
  revert i. induction l as [|a l IH]; intros [|i] H; simpl in *;
    try discriminate.
  - now injection H as ->.
  - f_equal. now apply IH.
Qed.

Lemma after_fetch_cases (r : settled response) (d : page) :
  (exists text,
      after_fetch r d = Finished (attached (message_node agent text) d)) \/
  (exists rs, after_fetch r d = AwaitJson d rs after_json).
Proof.
  destruct r as [rs|err]; simpl.
  - destruct (ok rs); simpl.
    + right. now exists rs.
    + left. eexists. apply catch_block_spec.
  - left. eexists. apply catch_block_spec.
Qed.

Lemma submit_handler_cases (e : event) (d : page) :
  snd (submit_handler e d) = Finished d \/
  exists m,
    snd (submit_handler e d)
    = AwaitFetch (set_userInput_value [] (attached (message_node user m) d))
        (chat_request m) after_fetch.
Proof.
  destruct (list_eq_dec N.eq_dec (trim (userInput_value d)) []) as [Hm|Hm].
  - left. now rewrite (submit_handler_blank e d Hm).
  - right. eexists. now rewrite (submit_handler_text e d Hm).
Qed.

Lemma resumed_waiting (i : nat) (x t : task) (w : session) :
  nth_error (waiting w) i = Some x ->
  Forall of_listener (waiting w) ->
  Forall of_listener (suspended t) ->
  Forall of_listener (waiting (resumed i t w)) /\
  (List.length (waiting (resumed i t w)) + 1
   = List.length (waiting w) + List.length (suspended t))%nat.
Proof.
  intros Hi Hw Ht. apply nth_error_cut in Hi.
  pose proof (f_equal (@List.length task) Hi) as Hl.
  rewrite length_app in Hl. simpl in Hl.
  rewrite Hi in Hw. apply Forall_app in Hw. destruct Hw as [Hw1 Hw2].
  inversion Hw2; subst. split.
  - simpl. rewrite !Forall_app. auto.
  - simpl. rewrite !length_app. lia.
Qed.

(** What a settlement does: the listener at [i] was suspended by this
    script, and it either ends, having attached one message of the agent to
    the page as it found it, or, after an ok response, goes on to await the
    body and leaves the page alone. *)
Lemma settlement_step (a : action) (w w' : session) :
  Forall of_listener (waiting w) ->
  perform a w = Some w' ->
  (exists i r, a = FetchSettles i r) \/ (exists i r, a = JsonSettles i r) ->
  Forall of_listener (waiting w') /\
  ((exists text,
       doc w' = attached (message_node agent text) (doc w) /\
       S (List.length (waiting w')) = List.length (waiting w)) \/
   (doc w' = doc w /\
    List.length (waiting w') = List.length (waiting w))).
Proof.
  intros Hw Hp [(i & r & ->) | (i & r & ->)]; simpl in Hp.
  - destruct (nth_error (waiting w) i) as [x|] eqn:Hi; [| discriminate].
    assert (Hx : of_listener x).
    { pose proof (nth_error_In _ _ Hi) as Hin.
      rewrite Forall_forall in Hw. now apply Hw. }
    destruct Hx as [(d & rq & ->) | (d & rs & ->)]; [| discriminate].
    injection Hp as <-.
    destruct (after_fetch_cases r (doc w)) as [[text Ht] | [rs Ht]];
      rewrite Ht.
    + destruct (resumed_waiting i _
                  (Finished (attached (message_node agent text) (doc w)))
                  w Hi Hw (Forall_nil _)) as [H1 H2].
      split; [exact H1 |]. left. exists text. split; [reflexivity |].
      simpl in H2 |- *. lia.
    + assert (Hs : Forall of_listener
                     (suspended (AwaitJson (doc w) rs after_json))).
      { constructor; [| constructor]. right. now exists (doc w), rs. }
      destruct (resumed_waiting i _ (AwaitJson (doc w) rs after_json)
                  w Hi Hw Hs) as [H1 H2].
      split; [exact H1 |]. right. split; [reflexivity |].
      simpl in H2 |- *. lia.
  - destruct (nth_error (waiting w) i) as [x|] eqn:Hi; [| discriminate].
    assert (Hx : of_listener x).
    { pose proof (nth_error_In _ _ Hi) as Hin.
      rewrite Forall_forall in Hw. now apply Hw. }
    destruct Hx as [(d & rq & ->) | (d & rs & ->)]; [discriminate |].
    injection Hp as <-.
    destruct (after_json_finishes r (doc w)) as [text Ht]. rewrite Ht.
    destruct (resumed_waiting i _
                (Finished (attached (message_node agent text) (doc w)))
                w Hi Hw (Forall_nil _)) as [H1 H2].
    split; [exact H1 |]. left. exists text. split; [reflexivity |].
    simpl in H2 |- *. lia.
Qed.

(** One action, whichever it is. *)
Lemma perform_log_step (a : action) (w w' : session) :
  Forall of_listener (waiting w) ->
  perform a w = Some w' ->
  Forall of_listener (waiting w') /\ log_step w w'.
Proof.
  intros Hw Hp. destruct a as [e|v|y|i r|i r].
  - simpl in Hp. injection Hp as <-.
    destruct (submit_handler_cases e (doc w)) as [Ht | [m Ht]]; rewrite Ht.
    + simpl. rewrite app_nil_r. split; [exact Hw |]. left. now split.
    + simpl. split.
      * apply Forall_app. split; [exact Hw |].
        constructor; [| constructor]. left. now eexists _, _.
      * right. left. exists m. simpl. split; [reflexivity |].
        rewrite length_app. simpl. lia.
  - simpl in Hp. injection Hp as <-. split; [exact Hw |]. left. now split.
  - simpl in Hp. injection Hp as <-. split; [exact Hw |]. left. now split.
  - destruct (settlement_step _ w w' Hw Hp) as [H1 H2];
      [left; now eexists _, _ |].
    split; [exact H1 |].
    destruct H2 as [(text & Hd & Hl) | (Hd & Hl)].
    + right. right. exists text. simpl. rewrite Hd. now split.
    + left. simpl. rewrite Hd. now split.
  - destruct (settlement_step _ w w' Hw Hp) as [H1 H2];
      [right; now eexists _, _ |].
    split; [exact H1 |].
    destruct H2 as [(text & Hd & Hl) | (Hd & Hl)].
    + right. right. exists text. simpl. rewrite Hd. now split.
    + left. simpl. rewrite Hd. now split.
Qed.

Lemma count_class_step (c : jstring) (n : node) (d d' : page) :
  children (chatWindow d') = children (chatWindow d) ++ [n] ->
  count_class c d'
  = (count_class c d + if has_class c n then 1 else 0)%nat.
Proof.
  intros H. unfold count_class. rewrite H, filter_app, length_app. simpl.
  destruct (has_class c n); reflexivity.
Qed.

(** X9: The script never removes or reorders a message: through any sequence of
    submissions, edits, scrolls and settlements, in any interleaving, the
    log that was there stays as the beginning of the log, and what is added
    to it are messages of the user and of the agent, elements [div] with
    the class [chat-message] and the class of the sender. *)
Theorem log_only_grows (l : list action) (w w' : session) :
  Forall of_listener (waiting w) ->
  perform_all l w = Some w' ->
  Forall of_listener (waiting w') /\
  exists more,
    children (chatWindow (doc w')) = children (chatWindow (doc w)) ++ more /\
    Forall is_message more.
Proof.
  revert w. induction l as [|a l IH]; intros w Hw Hp; simpl in Hp.
  - injection Hp as <-. split; [exact Hw |]. exists [].
    split; [now rewrite app_nil_r | constructor].
  - destruct (perform a w) as [w1|] eqn:Ha; [| discriminate].
    destruct (perform_log_step a w w1 Hw Ha) as [Hw1 Hs].
    destruct (IH w1 Hw1 Hp) as [Hw' (more & Hm & Hf)].
    split; [exact Hw' |]. rewrite Hm.
    destruct Hs as [[Hc _] | [(m & Hc & _) | (text & Hc & _)]];
      simpl in Hc; rewrite Hc.
    + now exists more.
    + exists (message_node user m :: more). split.
      * now rewrite <- app_assoc.
      * constructor; [| exact Hf]. exists user, m. auto.
    + exists (message_node agent text :: more). split.
      * now rewrite <- app_assoc.
      * constructor; [| exact Hf]. exists agent, text. auto.
Qed.

(** X10: Every user message is answered once or still awaited: through any
    sequence of actions, the user messages added to the log are as many as
    the agent messages added and the listeners that have come to wait. In
    particular, from a page just loaded, a log without waiting listeners
    has one agent message for each user message added. *)
Theorem user_messages_answered_or_awaited (l : list action) (w w' : session) :
  Forall of_listener (waiting w) ->
  perform_all l w = Some w' ->
  (count_class user (doc w') + count_class agent (doc w)
   + List.length (waiting w)
   = count_class user (doc w) + count_class agent (doc w')
     + List.length (waiting w'))%nat.
Proof.
  revert w. induction l as [|a l IH]; intros w Hw Hp; simpl in Hp.
  - injection Hp as <-. lia.
  - destruct (perform a w) as [w1|] eqn:Ha; [| discriminate].
    destruct (perform_log_step a w w1 Hw Ha) as [Hw1 Hs].
    specialize (IH w1 Hw1 Hp).
    destruct Hs as [[Hc Hl] | [(m & Hc & Hl) | (text & Hc & Hl)]];
      simpl in Hc.
    + unfold count_class in *. rewrite Hc in IH. rewrite <- Hl. exact IH.
    + rewrite (count_class_step user _ _ _ Hc) in IH.
      rewrite (count_class_step agent _ _ _ Hc) in IH.
      change (has_class user (message_node user m)) with true in IH.
      change (has_class agent (message_node user m)) with false in IH.
      cbn iota in IH. lia.
    + rewrite (count_class_step user _ _ _ Hc) in IH.
      rewrite (count_class_step agent _ _ _ Hc) in IH.
      change (has_class user (message_node agent text)) with false in IH.
      change (has_class agent (message_node agent text)) with true in IH.
      cbn iota in IH. lia.
Qed.

(** X11: When a promise settles, the listener either goes on to await the body
    and leaves the page alone, or appends one agent message: then the input
    field keeps what the user has typed meanwhile, and the log is scrolled
    to its bottom wherever the user had scrolled it. *)
Theorem settlement_keeps_input_and_scrolls_down (a : action)
    (w w' : session) :
  Forall of_listener (waiting w) ->
  (0 <= clientHeight (chatWindow (doc w)))%Z ->
  (exists i r, a = FetchSettles i r) \/ (exists i r, a = JsonSettles i r) ->
  perform a w = Some w' ->
  doc w' = doc w \/
  exists text,
    appends_one (message_node agent text) (doc w) (doc w') /\
    at_bottom (chatWindow (doc w')).
Proof.
  intros Hw Hc Ha Hp.
  destruct (settlement_step a w w' Hw Hp Ha)
    as [_ [(text & Hd & _) | (Hd & _)]].
  - right. exists text. rewrite Hd.
    split; [apply appends_one_attached | now apply at_bottom_attached].
  - now left.
Qed.

Lemma after_json_reply_string (s : jstring) (d : page) :
  s <> [] ->
  after_json (Fulfilled (JObj [(lit "reply", JStr s)])) d
  = Finished (attached (message_node agent s) d).
Proof.
  intros Hs. apply (after_json_shows _ (Some (JStr s))); [| reflexivity].
  rewrite reply_of_fields by discriminate.
  change (field (JObj [(lit "reply", JStr s)]) (lit "reply"))
    with (Some (JStr s)).
  cbn [truthy]. now rewrite (is_empty_false s Hs).
Qed.

(** X12: Nothing holds a submission back while an earlier one waits, and the
    answers come into the log as they arrive: with two submissions under
    way, when the second is answered first the log ends with the two user
    messages in the order of submission and then the two replies in the
    order of arrival, the second reply before the first. *)
Theorem replies_follow_arrival_order (d : page) (e1 e2 : event)
    (v1 v2 s1 s2 : jstring) (rs1 rs2 : response) :
  trim v1 <> [] -> trim v2 <> [] ->
  200 <= status rs1 <= 299 -> 200 <= status rs2 <= 299 ->
  s1 <> [] -> s2 <> [] ->
  exists w',
    perform_all
      [TypeText v1; Submit e1; TypeText v2; Submit e2;
       FetchSettles 1 (Fulfilled rs2);
       JsonSettles 1 (Fulfilled (JObj [(lit "reply", JStr s2)]));
       FetchSettles 0 (Fulfilled rs1);
       JsonSettles 0 (Fulfilled (JObj [(lit "reply", JStr s1)]))]
      (loaded d) = Some w' /\
    children (chatWindow (doc w'))
    = children (chatWindow d)
      ++ [message_node user (trim v1); message_node user (trim v2);
          message_node agent s2; message_node agent s1] /\
    waiting w' = [] /\
    userInput_value (doc w') = [].
Proof.
  intros Hv1 Hv2 Hr1 Hr2 Hs1 Hs2.
  eexists. split.
  - cbn [perform_all perform loaded doc waiting].
    rewrite (submit_handler_text e1 (set_userInput_value v1 d) Hv1).
    cbn [snd page_of suspended app doc waiting].
    match goal with
    | |- context [submit_handler e2 ?p] =>
        rewrite (submit_handler_text e2 p Hv2)
    end.
    cbn [snd page_of suspended app doc waiting nth_error].
    rewrite (after_fetch_ok rs2 _ Hr2).
    cbn [resumed page_of suspended app doc waiting nth_error firstn skipn].
    rewrite (after_json_reply_string s2 _ Hs2).
    cbn [resumed page_of suspended app doc waiting nth_error firstn skipn].
    rewrite (after_fetch_ok rs1 _ Hr1).
    cbn [resumed page_of suspended app doc waiting nth_error firstn skipn].
    rewrite (after_json_reply_string s1 _ Hs1).
    cbn [resumed page_of suspended app doc waiting nth_error firstn skipn].
    reflexivity.
  - cbn. rewrite <- !app_assoc. repeat split.
Qed.

(** X13: Submitting again without typing does nothing: the first submission
    has emptied the input field, so the second is a blank one, and one
    message is appended and one request is under way. *)
Theorem resubmission_without_typing_is_ignored (e1 e2 : event) (w : session) :
  trim (userInput_value (doc w)) <> [] ->
  perform_all [Submit e1; Submit e2] w = perform (Submit e1) w /\
  perform (Submit e1) w
  = Some {| doc :=
              set_userInput_value []
                (attached
                   (message_node user (trim (userInput_value (doc w))))
                   (doc w));
            waiting :=
              waiting w
              ++ [AwaitFetch
                    (set_userInput_value []
                       (attached
                          (message_node user (trim (userInput_value (doc w))))
                          (doc w)))
                    (chat_request (trim (userInput_value (doc w))))
                    after_fetch] |}.
Proof.
  intros Hm.
  assert (H1 : perform (Submit e1) w = Some
            {| doc :=
                 set_userInput_value []
                   (attached
                      (message_node user (trim (userInput_value (doc w))))
                      (doc w));
               waiting :=
                 waiting w
                 ++ [AwaitFetch
                       (set_userInput_value []
                          (attached
                             (message_node user
                                (trim (userInput_value (doc w))))
                             (doc w)))
                       (chat_request (trim (userInput_value (doc w))))
                       after_fetch] |}).
  { cbn [perform]. now rewrite (submit_handler_text e1 (doc w) Hm). }
  split; [| exact H1].
  cbn [perform_all]. rewrite H1. cbn [perform doc waiting].
  rewrite submit_handler_blank by reflexivity.
  cbn [snd page_of suspended]. now rewrite app_nil_r.
Qed.

End Properties.

(** ** The model on small inputs *)

(** A no-break space, a blank, a line feed and a byte order mark are
    trimmed, the blank inside stays. *)
Example trim_strips_unicode_whitespace :
  trim ([0xA0; 32] ++ lit "a b" ++ [10; 0xFEFF]) = lit "a b".
Proof. reflexivity. Qed.

(** A quote and a line feed are escaped, a surrogate pair is copied and a
    lone surrogate is written as an escape. *)
Example stringify_escapes :
  stringify (@JStr line_browser [34; 10; 0xD83D; 0xDE00; 0xD800])
  = [34; 92; 34; 92; 110; 0xD83D; 0xDE00;
     92; 117; 100; 56; 48; 48; 34].
Proof. reflexivity. Qed.

Example stringify_nested :
  stringify (@JObj line_browser
               [(lit "a", JArr [JNum {| negative := true; magnitude := Byte.x05 |}; JNull; JBool true]);
                (lit "b", JObj [])])
  = [123; 34; 97; 34; 58; 91; 45; 53; 44; 110; 117; 108; 108; 44;
     116; 114; 117; 101; 93; 44; 34; 98; 34; 58; 123; 125; 125].
Proof. reflexivity. Qed.

Example to_string_array :
  to_string (@JArr line_browser
               [JNum {| negative := false; magnitude := Byte.x05 |}; JNull; JStr (lit "a")])
  = Normal (lit "5,,a").
Proof. reflexivity. Qed.

(** ** The claims on the example pages *)



Lemma blank_submission_is_ignored_witness :
  trim (userInput_value blank_page) = [] /\
  submit_handler (B := line_browser) submit_event blank_page
  = (preventDefault submit_event, Finished blank_page).
Proof.
  assert (H : trim (userInput_value blank_page) = []) by reflexivity.
  split; [exact H |].
  exact (proj1 (proj2 (blank_submission_is_ignored submit_event blank_page H))).
Defined.

Lemma submission_appends_user_message_witness :
  trim (userInput_value busy_page) <> [] /\
  exists d1 rq resume,
    snd (submit_handler (B := line_browser) submit_event busy_page)
    = AwaitFetch d1 rq resume /\
    children (chatWindow d1)
    = children (chatWindow busy_page) ++ [message_node user (lit "hello")] /\
    userInput_value d1 = [].
Proof.
  assert (H : trim (userInput_value busy_page) <> []) by discriminate.
  split; [exact H |].
  exact (proj1 (submission_appends_user_message submit_event busy_page H)).
Defined.



(** The request posted for a text with a quote, a line feed, a backslash
    and a lone surrogate, each written as its escape. *)
Lemma submission_posts_one_request_witness :
  trim (userInput_value escapes_page) <> [] /\
  (forall env rqs t,
      run env (snd (submit_handler (B := line_browser) submit_event escapes_page))
        rqs t ->
      rqs = [escapes_request]) /\
  exists q,
    body escapes_request
    = [123; 34; 109; 101; 115; 115; 97; 103; 101; 34; 58; 34]
      ++ q ++ [34; 125] /\
    read_json_chars q = Some [104; 34; 10; 92; 0xD800].
Proof.
  assert (H : trim (userInput_value escapes_page) <> []) by discriminate.
  split; [exact H |].
  destruct (submission_posts_one_request (B := line_browser)
              submit_event escapes_page H) as (_ & Hrun & Hread & _).
  split; [exact Hrun | exact Hread].
Defined.

Lemma append_scrolls_to_bottom_witness :
  (0 <= clientHeight (chatWindow busy_page))%Z /\
  appendMessage (B := line_browser) (str (lit "hello")) user busy_page
  = Normal (attached (message_node user (lit "hello")) busy_page) /\
  at_bottom (chatWindow (attached (B := line_browser)
                           (message_node user (lit "hello")) busy_page)) /\
  last_message_visible
    (chatWindow (attached (B := line_browser)
                   (message_node user (lit "hello")) busy_page)).
Proof.
  assert (H : (0 <= clientHeight (chatWindow busy_page))%Z) by (simpl; lia).
  split; [exact H |]. split; [reflexivity |].
  destruct (append_scrolls_to_bottom (B := line_browser) (str (lit "hello"))
              user busy_page _ H eq_refl) as (_ & _ & Hb & Hv).
  split; [exact Hb |]. apply Hv. vm_compute. split; discriminate.
Defined.

(** Five messages of 24 pixels in a viewport of 100: after the append the
    scroll position is 20, the largest there is, and the height of the
    content is 120. *)
Lemma scroll_position_differs_from_content_height :
  exists d',
    appendMessage (B := line_browser) (str (lit "hello")) user busy_page
    = Normal d' /\
    scrollTop (chatWindow d') = 20%Z /\
    scrollHeight (chatWindow d') = 120%Z /\
    scrollTop (chatWindow d') <> scrollHeight (chatWindow d').
Proof.
  eexists. split; [reflexivity |]. repeat split. discriminate.
Qed.

Lemma failure_is_contained_witness :
  failed (Rejected (TypeError (lit "Failed to fetch"))) /\
  exists d1,
    after_fetch (B := line_browser)
      (Rejected (TypeError (lit "Failed to fetch"))) busy_page
    = Finished d1 /\
    appends_one (message_node agent (lit "Error: Failed to fetch"))
      busy_page d1.
Proof.
  split; [exact I |].
  destruct (failure_is_contained (B := line_browser)
              (Rejected (TypeError (lit "Failed to fetch"))) busy_page I)
    as (d1 & H1 & H2 & _).
  exists d1. split; [exact H1 | exact H2].
Defined.


Lemma user_message_precedes_agent_message_witness :
  trim (userInput_value busy_page) <> [] /\
  forall rqs t,
    run log_extends
      (snd (submit_handler (B := line_browser) submit_event busy_page)) rqs t ->
    exists fin between text,
      t = Finished fin /\
      children (chatWindow fin)
      = children (chatWindow busy_page) ++ [message_node user (lit "hello")]
        ++ between ++ [message_node agent text].
Proof.
  assert (H : trim (userInput_value busy_page) <> []) by discriminate.
  split; [exact H |].
  exact (proj2 (user_message_precedes_agent_message submit_event busy_page H)).
Defined.

(** ** The further properties on the example pages *)

Lemma submitted_text_is_value_without_outer_whitespace_witness :
  trim (userInput_value busy_page) <> [] /\
  exists pre post,
    userInput_value busy_page = pre ++ lit "hello" ++ post /\
    forallb is_white_space pre = true /\
    forallb is_white_space post = true.
Proof.
  assert (H : trim (userInput_value busy_page) <> []) by discriminate.
  split; [exact H |].
  exact (proj1 (submitted_text_is_value_without_outer_whitespace
                  (B := line_browser) submit_event busy_page H)).
Defined.

(** The body ["hi"] is shown with its quotes. *)
Lemma body_without_fields_witness :
  (forall ps, string_body <> JObj ps) /\
  ends_appending (after_json (Fulfilled string_body) busy_page)
    (message_node agent [34; 104; 105; 34]) busy_page.
Proof.
  assert (H : forall ps, string_body <> JObj ps) by discriminate.
  split; [exact H |].
  exact (body_without_fields string_body busy_page H).
Defined.

Lemma reply_object_text_witness :
  field object_reply_body (lit "reply")
  = Some (JObj [(lit "text", JStr (lit "hi"))]) /\
  ends_appending (after_json (Fulfilled object_reply_body) busy_page)
    (message_node agent (lit "[object Object]")) busy_page.
Proof.
  assert (H : field object_reply_body (lit "reply")
              = Some (JObj [(lit "text", JStr (lit "hi"))])) by reflexivity.
  split; [exact H |].
  exact (reply_object_text object_reply_body _ busy_page H).
Defined.

Lemma log_only_grows_witness :
  Forall of_listener (waiting (loaded busy_page)) /\
  exists w' more,
    perform_all two_submissions (loaded busy_page) = Some w' /\
    children (chatWindow (doc w'))
    = children (chatWindow busy_page) ++ more /\
    Forall is_message more.
Proof.
  assert (H : Forall of_listener (waiting (loaded (B := line_browser) busy_page)))
    by constructor.
  split; [exact H |].
  destruct (perform_all two_submissions (loaded busy_page)) as [w'|] eqn:E;
    [| vm_compute in E; discriminate E].
  destruct (log_only_grows two_submissions (loaded busy_page) w' H E)
    as (_ & more & Hm & Hf).
  exists w', more. split; [reflexivity |]. split; [exact Hm | exact Hf].
Defined.

Lemma user_messages_answered_or_awaited_witness :
  Forall of_listener (waiting (loaded busy_page)) /\
  exists w',
    perform_all two_submissions (loaded busy_page) = Some w' /\
    waiting w' = [] /\
    (count_class user (doc w') + count_class agent busy_page
     = count_class user busy_page + count_class agent (doc w'))%nat.
Proof.
  assert (H : Forall of_listener (waiting (loaded (B := line_browser) busy_page)))
    by constructor.
  split; [exact H |].
  destruct (perform_all two_submissions (loaded busy_page)) as [w'|] eqn:E;
    [| vm_compute in E; discriminate E].
  pose proof (user_messages_answered_or_awaited
                two_submissions (loaded busy_page) w' H E) as Hb.
  assert (Hw : waiting w' = []).
  { vm_compute in E. injection E as <-. reflexivity. }
  exists w'. split; [reflexivity |]. split; [exact Hw |].
  rewrite Hw in Hb. unfold loaded in Hb. cbn [doc waiting List.length] in Hb.
  lia.
Defined.

Lemma settlement_keeps_input_and_scrolls_down_witness :
  Forall of_listener (waiting waiting_session) /\
  (0 <= clientHeight (chatWindow (doc waiting_session)))%Z /\
  exists w' text,
    perform (FetchSettles 0 (Rejected (TypeError (lit "network down"))))
      waiting_session = Some w' /\
    appends_one (message_node agent text) (doc waiting_session) (doc w') /\
    userInput_value (doc w') = lit "next" /\
    at_bottom (chatWindow (doc w')).
Proof.
  assert (H : Forall of_listener (waiting waiting_session)).
  { constructor; [| constructor]. left. eexists _, _. reflexivity. }
  assert (Hc : (0 <= clientHeight (chatWindow (doc waiting_session)))%Z)
    by (simpl; lia).
  split; [exact H |]. split; [exact Hc |].
  destruct (perform (FetchSettles 0 (Rejected (TypeError (lit "network down"))))
              waiting_session) as [w'|] eqn:E;
    [| vm_compute in E; discriminate E].
  destruct (settlement_keeps_input_and_scrolls_down _ waiting_session w' H Hc
              (or_introl (ex_intro _ 0%nat (ex_intro _ _ eq_refl))) E)
    as [Hd | (text & Ha & Hb)].
  - exfalso. vm_compute in E. injection E as <-. discriminate Hd.
  - exists w', text. split; [reflexivity |]. split; [exact Ha |].
    split; [| exact Hb].
    destruct Ha as (_ & Hv & _). rewrite Hv. reflexivity.
Defined.

Lemma replies_follow_arrival_order_witness :
  exists w',
    perform_all
      [TypeText (lit "one"); Submit submit_event;
       TypeText (lit "two"); Submit submit_event;
       FetchSettles 1 (Fulfilled {| status := 200 |});
       JsonSettles 1 (Fulfilled (JObj [(lit "reply", JStr (lit "second"))]));
       FetchSettles 0 (Fulfilled {| status := 200 |});
       JsonSettles 0 (Fulfilled (JObj [(lit "reply", JStr (lit "first"))]))]
      (loaded (B := line_browser) busy_page) = Some w' /\
    children (chatWindow (doc w'))
    = children (chatWindow busy_page)
      ++ [message_node user (lit "one"); message_node user (lit "two");
          message_node agent (lit "second"); message_node agent (lit "first")].
Proof.
  destruct (replies_follow_arrival_order (B := line_browser)
              busy_page submit_event submit_event
              (lit "one") (lit "two") (lit "first") (lit "second")
              {| status := 200 |} {| status := 200 |})
    as (w' & Hp & Hc & _);
    try discriminate; try (simpl; lia).
  exists w'. split; [exact Hp | exact Hc].
Defined.

Lemma resubmission_without_typing_is_ignored_witness :
  trim (userInput_value (doc (loaded busy_page))) <> [] /\
  perform_all [Submit submit_event; Submit submit_event]
    (loaded (B := line_browser) busy_page)
  = perform (Submit submit_event) (loaded busy_page).
Proof.
  assert (H : trim (userInput_value (doc (loaded (B := line_browser) busy_page)))
              <> []) by discriminate.
  split; [exact H |].
  exact (proj1 (resubmission_without_typing_is_ignored
                  submit_event submit_event (loaded busy_page) H)).
Defined.
